(** * REMBO: Bayesian optimisation in a linear subspace

    A shallow embedding of [ax/models/torch/rembo.py]: the class [REMBO]
    (a subclass of [BotorchModel]) and the helper [_get_single_X].

    Modelling conventions.

    - Tensor entries are exact rationals ([Q]).  Rounding error, infinities
      and NaN have no counterpart: [torch.allclose] is its defining
      inequality [|a - b| <= atol + rtol * |b|] with the default
      tolerances, evaluated exactly.  Division by a zero width ([ub = lb]
      in [to_01]) is [0] in [Q] where torch produces inf or nan.  Where a
      statement turns on rounding or on NaN, module [Float64] has the
      numeric functions once more on IEEE binary64 entries.
    - A 2-D tensor is its column count together with its list of rows, so
      that an empty batch still has a width; a 1-D tensor is a list.
    - Python exceptions are values of [exn]; a method is a function from
      the object to an outcome and the object as the call leaves it, also
      when the call raises.
    - The superclass [BotorchModel] is not part of this file: its state is
      an abstract type and its methods are parameters acting on that state
      only.  What a superclass method raises reaches the caller as
      [SuperError], which keeps it apart from the exceptions raised in
      this file.  [torch.pinverse] is a parameter as well. *)

From Stdlib Require Import QArith Qabs Qminmax Qfield Lqa.
From Stdlib Require Floats.
From Stdlib Require Import String DecimalString DecimalNat.
From Stdlib Require Import List Bool Lia PeanoNat.
Import ListNotations.

Local Open Scope Q_scope.

(** ** Exceptions and fallible results *)

Inductive exn : Type :=
| AssertionError
| ValueError (msg : string)
| NotImplementedError (msg : string)
| IndexError
| RuntimeError
| SuperError (msg : string).   (* raised inside a superclass method *)

Inductive result (T : Type) : Type :=
| Ok (v : T)
| Raise (e : exn).
Arguments Ok {T} v.
Arguments Raise {T} e.

Definition rbind {T U} (m : result T) (k : T -> result U) : result U :=
  match m with
  | Ok v => k v
  | Raise e => Raise e
  end.

Declare Scope result_scope.
Delimit Scope result_scope with res.
Notation "x <- m ;; k" := (rbind m (fun x => k))
  (at level 61, m at next level, right associativity) : result_scope.
Local Open Scope result_scope.

Definition assert_ (b : bool) : result unit :=
  if b then Ok tt else Raise AssertionError.

(** [for x in l: s = body x s], stopping at the first exception. *)
Fixpoint for_each {T S} (l : list T) (body : T -> S -> result S) (s : S)
  : result S :=
  match l with
  | [] => Ok s
  | x :: l' => s' <- body x s ;; for_each l' body s'
  end.

Definition enumerate {T} (l : list T) : list (nat * T) :=
  combine (seq 0 (length l)) l.

(** ** Tensors *)

Definition vec := list Q.

Record Tensor : Type := mkTensor { shape1 : nat; rows : list vec }.

Definition shape0 (X : Tensor) : nat := length (rows X).

Definition wf_tensor (X : Tensor) : Prop :=
  Forall (fun r => length r = shape1 X) (rows X).

Definition col (j : nat) (X : Tensor) : vec :=
  map (fun r => nth j r 0) (rows X).

(** [torch.t] on a 2-D tensor. *)
Definition t (X : Tensor) : Tensor :=
  mkTensor (shape0 X) (map (fun j => col j X) (seq 0 (shape1 X))).

Definition dot (u v : vec) : Q :=
  fold_right Qplus 0 (map (fun p => fst p * snd p) (combine u v)).

(** [X @ Y] for 2-D operands; the inner dimensions must agree. *)
Definition matmul (X Y : Tensor) : result Tensor :=
  if (shape1 X =? shape0 Y)%nat then
    Ok (mkTensor (shape1 Y)
          (map (fun r => map (fun j => dot r (col j Y)) (seq 0 (shape1 Y)))
               (rows X)))
  else Raise RuntimeError.

(** [A @ v] for a 1-D right operand. *)
Definition matvec (A : Tensor) (v : vec) : result vec :=
  if (shape1 A =? length v)%nat then Ok (map (fun r => dot r v) (rows A))
  else Raise RuntimeError.

(** [torch.clamp(z, min=lo, max=hi)] on one entry. *)
Definition clamp1 (lo hi z : Q) : Q := Qmin (Qmax z lo) hi.

Definition clamp_vec (lo hi : Q) (v : vec) : vec := map (clamp1 lo hi) v.

Definition clamp (lo hi : Q) (Z : Tensor) : Tensor :=
  mkTensor (shape1 Z) (map (clamp_vec lo hi) (rows Z)).

(** [torch.stack] of 1-D tensors: non-empty, all of one length. *)
Definition stack (l : list vec) : result Tensor :=
  match l with
  | [] => Raise RuntimeError
  | v :: _ =>
      if forallb (fun u => length u =? length v)%nat l
      then Ok (mkTensor (length v) l)
      else Raise RuntimeError
  end.

(** *** [torch.allclose] with its default tolerances *)

Definition rtol : Q := 1 # 100000.
Definition atol : Q := 1 # 100000000.

Definition isclose (a b : Q) : bool :=
  Qle_bool (Qabs (a - b)) (atol + rtol * Qabs b).

(** Broadcasting of one dimension: equal sizes, or one of them is 1. *)
Definition broadcast_dim (n m : nat) : option nat :=
  if (n =? m)%nat then Some n
  else if (n =? 1)%nat then Some m
  else if (m =? 1)%nat then Some n
  else None.

Definition expand {T} (d : T) (l : list T) (k : nat) : list T :=
  if (length l =? k)%nat then l else repeat (hd d l) k.

Fixpoint all2 {T} (p : T -> T -> bool) (l1 l2 : list T) : bool :=
  match l1, l2 with
  | x :: l1', y :: l2' => p x y && all2 p l1' l2'
  | _, _ => true
  end.

Definition allclose_vec (a b : vec) : result bool :=
  match broadcast_dim (length a) (length b) with
  | Some k => Ok (all2 isclose (expand 0 a k) (expand 0 b k))
  | None => Raise RuntimeError
  end.

Definition allclose (X Y : Tensor) : result bool :=
  match broadcast_dim (shape0 X) (shape0 Y),
        broadcast_dim (shape1 X) (shape1 Y) with
  | Some n, Some c =>
      Ok (all2 (fun r1 r2 => all2 isclose (expand 0 r1 c) (expand 0 r2 c))
               (expand [] (rows X) n) (expand [] (rows Y) n))
  | _, _ => Raise RuntimeError
  end.

(** [X[:, i] = f(X[:, i])]; the column must exist. *)
Fixpoint upd_nth (i : nat) (f : Q -> Q) (r : vec) : vec :=
  match r, i with
  | [], _ => []
  | x :: r', O => f x :: r'
  | x :: r', S i' => x :: upd_nth i' f r'
  end.

Definition update_col (i : nat) (f : Q -> Q) (X : Tensor) : result Tensor :=
  if (i <? shape1 X)%nat
  then Ok (mkTensor (shape1 X) (map (upd_nth i f) (rows X)))
  else Raise IndexError.

(** [list.remove]: drops the first occurrence. *)
Fixpoint list_remove (x : nat) (l : list nat) : list nat :=
  match l with
  | [] => []
  | y :: l' => if (x =? y)%nat then l' else y :: list_remove x l'
  end.

Definition getitem {T} (l : list T) (i : nat) : result T :=
  match nth_error l i with
  | Some v => Ok v
  | None => Raise IndexError
  end.

(** [x.unsqueeze(0)] of a 1-D tensor and [X.squeeze(0)] of a one-row
    2-D tensor. *)
Definition unsqueeze0 (x : vec) : Tensor := mkTensor (length x) [x].
Definition squeeze0 (X : Tensor) : vec := hd [] (rows X).

(** ** Plain data passed through to the superclass *)

Definition bound := (Q * Q)%type.

Definition bound_eqb (b c : bound) : bool :=
  Qeq_bool (fst b) (fst c) && Qeq_bool (snd b) (snd c).

Record SearchSpaceDigest : Type := mkSearchSpaceDigest {
  feature_names : list string;
  bounds : list bound;
  task_features : list nat;
  fidelity_features : list nat
}.

Definition is_None {T} (o : option T) : bool :=
  match o with None => true | Some _ => false end.

(** What a superclass method hands back: a value or its own exception. *)
Inductive sresult (T : Type) : Type :=
| SOk (v : T)
| SRaise (msg : string).
Arguments SOk {T} v.
Arguments SRaise {T} msg.

(** ** [_get_single_X] *)

Definition _get_single_X (Xs : list Tensor) : result Tensor :=
  X <- getitem Xs 0 ;;
  _ <- for_each (seq 1 (length Xs - 1))
         (fun i _ => Xi <- getitem Xs i ;;
                     c <- allclose X Xi ;;
                     assert_ c) tt ;;
  Ok X.

(** ** The class *)

Section REMBO.

(** Opaque values held by the [Dict[str, Any]] arguments. *)
Context {Any : Type}.
Let TConfig : Type := list (string * Any).
Let TGenMetadata : Type := list (string * Any).
Let TCandidateMetadata : Type := option (list (string * Any)).

(** The superclass [BotorchModel]: its state and its methods. *)
Context {Base : Type}.
Context {Kwargs : Type}.
Variable super_init : Kwargs -> Base.
Variable super_fit :
  Base -> list Tensor -> list Tensor -> list Tensor -> SearchSpaceDigest ->
  list string -> option (list (list TCandidateMetadata)) ->
  sresult unit * Base.
Variable super_predict : Base -> Tensor -> sresult (Tensor * Tensor) * Base.
Variable super_gen :
  Base -> Z -> list bound -> vec -> option (Tensor * Tensor) ->
  option TConfig ->
  sresult (Tensor * vec * TGenMetadata * option (list TCandidateMetadata))
  * Base.
Variable super_best_point :
  Base -> list bound -> vec -> option (Tensor * Tensor) -> option TConfig ->
  sresult (option vec) * Base.
Variable super_cross_validate :
  Base -> list Tensor -> list Tensor -> list Tensor -> Tensor ->
  sresult (Tensor * Tensor) * Base.
Variable super_update :
  Base -> list Tensor -> list Tensor -> list Tensor ->
  option (list (list TCandidateMetadata)) -> sresult unit * Base.

(** [torch.pinverse]. *)
Variable pinverse : Tensor -> Tensor.

Record REMBO : Type := mkREMBO {
  A : Tensor;
  _pinvA : Tensor;
  X_d : list vec;
  X_d_gen : list vec;
  bounds_d : list bound;
  num_outputs : nat;
  base : Base
}.

Definition set_num_outputs (n : nat) (self : REMBO) : REMBO :=
  mkREMBO (A self) (_pinvA self) (X_d self) (X_d_gen self) (bounds_d self)
          n (base self).

Definition set_base (b : Base) (self : REMBO) : REMBO :=
  mkREMBO (A self) (_pinvA self) (X_d self) (X_d_gen self) (bounds_d self)
          (num_outputs self) b.

Definition extend_X_d (l : list vec) (self : REMBO) : REMBO :=
  mkREMBO (A self) (_pinvA self) (X_d self ++ l) (X_d_gen self)
          (bounds_d self) (num_outputs self) (base self).

Definition extend_X_d_gen (l : list vec) (self : REMBO) : REMBO :=
  mkREMBO (A self) (_pinvA self) (X_d self) (X_d_gen self ++ l)
          (bounds_d self) (num_outputs self) (base self).

(** *** Methods as state transformers that may raise *)

Definition M (T : Type) : Type := REMBO -> result T * REMBO.

Definition ret {T} (v : T) : M T := fun self => (Ok v, self).

Definition bind {T U} (m : M T) (k : T -> M U) : M U :=
  fun self =>
    match m self with
    | (Ok v, self') => k v self'
    | (Raise e, self') => (Raise e, self')
    end.

Definition lift {T} (r : result T) : M T := fun self => (r, self).

Definition raise {T} (e : exn) : M T := fun self => (Raise e, self).

Definition get_self : M REMBO := fun self => (Ok self, self).

Definition modify (f : REMBO -> REMBO) : M unit :=
  fun self => (Ok tt, f self).

(** A call [super().m(...)]: runs on the superclass state; what it
    raises propagates. *)
Definition super {T} (m : Base -> sresult T * Base) : M T :=
  fun self =>
    match m (base self) with
    | (SOk v, b') => (Ok v, set_base b' self)
    | (SRaise msg, b') => (Raise (SuperError msg), set_base b' self)
    end.

Declare Scope method_scope.
Delimit Scope method_scope with meth.
Notation "x <- m ;; k" := (bind m (fun x => k))
  (at level 61, m at next level, right associativity) : method_scope.

Definition __init__ (A0 initial_X_d : Tensor) (bounds_d0 : list bound)
           (kwargs : Kwargs) : REMBO :=
  mkREMBO A0 (pinverse A0) (rows initial_X_d) [] bounds_d0 0
          (super_init kwargs).

Definition to_01 (self : REMBO) (X_d0 : Tensor) : result Tensor :=
  for_each (enumerate (bounds_d self))
    (fun '(i, (lb, ub)) X_d01 =>
       update_col i (fun x => (x - lb) / (ub - lb)) X_d01)
    X_d0.

Definition from_01 (self : REMBO) (X_d01 : Tensor) : result Tensor :=
  for_each (enumerate (bounds_d self))
    (fun '(i, (lb, ub)) X_d0 =>
       update_col i (fun x => x * (ub - lb) + lb) X_d0)
    X_d01.

(** [project_up] on a 2-D tensor. *)
Definition project_up (self : REMBO) (X : Tensor) : result Tensor :=
  Z <- matmul (A self) (t X) ;;
  Ok (clamp (-1) 1 (t Z)).

(** [project_up] on a 1-D tensor, where [torch.t] is the identity. *)
Definition project_up_vec (self : REMBO) (x : vec) : result vec :=
  Z <- matvec (A self) x ;;
  Ok (clamp_vec (-1) 1 Z).

(** The inner loop of [project_down]: the first index of [unmatched]
    whose stored point projects close to [x_D]. *)
Fixpoint find_match (self : REMBO) (x_D : vec) (unmatched : list nat)
  : result (option nat) :=
  match unmatched with
  | [] => Ok None
  | d_idx :: rest =>
      z <- getitem (X_d self) d_idx ;;
      up <- project_up_vec self z ;;
      c <- allclose_vec x_D up ;;
      if c then Ok (Some d_idx) else find_match self x_D rest
  end.

Fixpoint project_down_loop (self : REMBO) (X_D : list vec)
         (X_d0 : list vec) (unmatched : list nat) : result (list vec) :=
  match X_D with
  | [] => Ok X_d0
  | x_D :: rest =>
      idx_match <- find_match self x_D unmatched ;;
      match idx_match with
      | Some i =>
          z <- getitem (X_d self) i ;;
          project_down_loop self rest (X_d0 ++ [z]) (list_remove i unmatched)
      | None => Raise (ValueError "Failed to project X down.")
      end
  end.

Definition project_down (self : REMBO) (X_D : Tensor) : result Tensor :=
  l <- project_down_loop self (rows X_D) [] (seq 0 (length (X_d self))) ;;
  stack l.

Definition outside_embedding : exn :=
  NotImplementedError
    "Predictions outside the linear embedding not supported.".

Definition unit_bounds (self : REMBO) : list bound :=
  repeat (0, 1) (length (bounds_d self)).

Definition assert_bounds (bs : list bound) : result unit :=
  for_each bs (fun b _ => assert_ (bound_eqb b (-1, 1))) tt.

Definition low_d_feature_names (self : REMBO) : list string :=
  map (fun i => ("x" ++ NilEmpty.string_of_uint (Nat.to_uint i))%string)
      (seq 0 (shape1 (A self))).

Local Open Scope method_scope.

Definition fit (Xs Ys Yvars : list Tensor)
           (search_space_digest : SearchSpaceDigest)
           (metric_names : list string)
           (candidate_metadata : option (list (list TCandidateMetadata)))
  : M unit :=
  _ <- lift (assert_
               (length (task_features search_space_digest) =? 0)%nat) ;;
  _ <- lift (assert_
               (length (fidelity_features search_space_digest) =? 0)%nat) ;;
  _ <- lift (assert_bounds (bounds search_space_digest)) ;;
  _ <- modify (set_num_outputs (length Xs)) ;;
  X_D <- lift (_get_single_X Xs) ;;
  self <- get_self ;;
  X_d0 <- lift (project_down self X_D) ;;
  X01 <- lift (to_01 self X_d0) ;;
  super (fun b =>
    super_fit b (repeat X01 (num_outputs self)) Ys Yvars
      (mkSearchSpaceDigest
         (low_d_feature_names self)
         (unit_bounds self)
         (task_features search_space_digest)
         (fidelity_features search_space_digest))
      metric_names candidate_metadata).

Definition predict (X : Tensor) : M (Tensor * Tensor) :=
  self <- get_self ;;
  X_d0 <- (if (shape1 X =? shape1 (A self))%nat then ret X
           else
             X_d0 <- lift (matmul X (t (_pinvA self))) ;;
             XA <- lift (matmul X_d0 (t (A self))) ;;
             c <- lift (allclose X XA) ;;
             if negb c then raise outside_embedding else ret X_d0) ;;
  X01 <- lift (to_01 self X_d0) ;;
  super (fun b => super_predict b X01).

Definition gen (n : Z) (bounds0 : list bound) (objective_weights : vec)
           (outcome_constraints linear_constraints
              : option (Tensor * Tensor))
           (fixed_features : option (list (nat * Q)))
           (pending_observations : option (list Tensor))
           (model_gen_options : option TConfig)
  : M (Tensor * vec * TGenMetadata * option (list TCandidateMetadata)) :=
  _ <- lift (assert_bounds bounds0) ;;
  _ <- lift (assert_ (is_None linear_constraints)) ;;
  _ <- lift (assert_ (is_None fixed_features)) ;;
  _ <- lift (assert_ (is_None pending_observations)) ;;
  self <- get_self ;;
  r <- super (fun b =>
         super_gen b n (unit_bounds self) objective_weights
                   outcome_constraints model_gen_options) ;;
  let '(Xopt_01, w, _gen_metadata, _candidate_metadata) := r in
  Xopt <- lift (from_01 self Xopt_01) ;;
  _ <- modify (extend_X_d (rows Xopt)) ;;
  _ <- modify (extend_X_d_gen (rows Xopt)) ;;
  up <- lift (project_up self Xopt) ;;
  ret (up, w, [], None).

Definition best_point (bounds0 : list bound) (objective_weights : vec)
           (outcome_constraints linear_constraints
              : option (Tensor * Tensor))
           (fixed_features : option (list (nat * Q)))
           (model_gen_options : option TConfig)
  : M (option vec) :=
  _ <- lift (assert_bounds bounds0) ;;
  _ <- lift (assert_ (is_None linear_constraints)) ;;
  _ <- lift (assert_ (is_None fixed_features)) ;;
  self <- get_self ;;
  x_best <- super (fun b =>
              super_best_point b (bounds_d self) objective_weights
                               outcome_constraints model_gen_options) ;;
  match x_best with
  | Some x =>
      X <- lift (from_01 self (unsqueeze0 x)) ;;
      up <- lift (project_up self X) ;;
      ret (Some (squeeze0 up))
  | None => ret None
  end.

Definition cross_validate (Xs_train Ys_train Yvars_train : list Tensor)
           (X_test : Tensor) : M (Tensor * Tensor) :=
  X_D <- lift (_get_single_X Xs_train) ;;
  self <- get_self ;;
  X_train_d <- lift (project_down self X_D) ;;
  X_test_d <- lift (project_down self X_test) ;;
  X_train01 <- lift (to_01 self X_train_d) ;;
  X_test01 <- lift (to_01 self X_test_d) ;;
  super (fun b =>
    super_cross_validate b (repeat X_train01 (num_outputs self))
                         Ys_train Yvars_train X_test01).

Definition update (Xs Ys Yvars : list Tensor)
           (candidate_metadata : option (list (list TCandidateMetadata)))
  : M unit :=
  X_D <- lift (_get_single_X Xs) ;;
  self <- get_self ;;
  X_d0 <- lift (project_down self X_D) ;;
  X01 <- lift (to_01 self X_d0) ;;
  super (fun b =>
    super_update b (repeat X01 (num_outputs self)) Ys Yvars
                 candidate_metadata).

Local Close Scope method_scope.

(** *** The public operations as one labelled transition *)

Inductive op : Type :=
| OpFit (Xs Ys Yvars : list Tensor) (ssd : SearchSpaceDigest)
        (metric_names : list string)
        (cm : option (list (list TCandidateMetadata)))
| OpPredict (X : Tensor)
| OpGen (n : Z) (bounds0 : list bound) (w : vec)
        (oc lc : option (Tensor * Tensor))
        (ff : option (list (nat * Q))) (po : option (list Tensor))
        (mgo : option TConfig)
| OpBestPoint (bounds0 : list bound) (w : vec)
              (oc lc : option (Tensor * Tensor))
              (ff : option (list (nat * Q))) (mgo : option TConfig)
| OpCrossValidate (Xs_train Ys_train Yvars_train : list Tensor)
                  (X_test : Tensor)
| OpUpdate (Xs Ys Yvars : list Tensor)
           (cm : option (list (list TCandidateMetadata))).

Definition is_Ok {T} (r : result T) : bool :=
  match r with Ok _ => true | Raise _ => false end.

Definition outcome {T} (p : result T * REMBO) : bool * REMBO :=
  (is_Ok (fst p), snd p).

(** Whether the call returned, and the object it leaves. *)
Definition run (o : op) (self : REMBO) : bool * REMBO :=
  match o with
  | OpFit Xs Ys Yvars ssd mn cm => outcome (fit Xs Ys Yvars ssd mn cm self)
  | OpPredict X => outcome (predict X self)
  | OpGen n bs w oc lc ff po mgo =>
      outcome (gen n bs w oc lc ff po mgo self)
  | OpBestPoint bs w oc lc ff mgo =>
      outcome (best_point bs w oc lc ff mgo self)
  | OpCrossValidate Xs Ys Yvars X_test =>
      outcome (cross_validate Xs Ys Yvars X_test self)
  | OpUpdate Xs Ys Yvars cm => outcome (update Xs Ys Yvars cm self)
  end.

Definition is_gen (o : op) : bool :=
  match o with OpGen _ _ _ _ _ _ _ _ => true | _ => false end.

Definition is_fit (o : op) : bool :=
  match o with OpFit _ _ _ _ _ _ => true | _ => false end.

Fixpoint run_all (os : list op) (self : REMBO) : REMBO :=
  match os with
  | [] => self
  | o :: os' => run_all os' (snd (run o self))
  end.

End REMBO.

Arguments REMBO : clear implicits.
Arguments M : clear implicits.
Arguments op : clear implicits.

(** ** Reference forms used in statements *)

(** The per-column affine maps of [to_01] and [from_01] on one entry. *)
Definition to_unit (b : bound) (x : Q) : Q := (x - fst b) / (snd b - fst b).
Definition from_unit (b : bound) (x : Q) : Q := x * (snd b - fst b) + fst b.

(** A row with its leading entries transformed, one per bound. *)
Fixpoint affine_row (f : bound -> Q -> Q) (bs : list bound) (r : vec) : vec :=
  match bs, r with
  | b :: bs', x :: r' => f b x :: affine_row f bs' r'
  | _, _ => r
  end.

(** The tail of [predict] once the low-dimensional [X_d] is known:
    normalise and hand over to the superclass. *)
Definition forward {Base : Type}
           (super_predict : Base -> Tensor -> sresult (Tensor * Tensor) * Base)
           (self : REMBO Base) (X_d0 : Tensor)
  : result (Tensor * Tensor) * REMBO Base :=
  match to_01 self X_d0 with
  | Ok X01 => super (fun b => super_predict b X01) self
  | Raise e => (Raise e, self)
  end.

(** The domain checks that open [fit], as one test. *)
Definition fit_preconditions (ssd : SearchSpaceDigest) : bool :=
  (length (task_features ssd) =? 0)%nat
  && (length (fidelity_features ssd) =? 0)%nat
  && is_Ok (assert_bounds (bounds ssd)).

(** The checks that open [gen], as one test. *)
Definition gen_preconditions (bounds0 : list bound)
           (linear_constraints : option (Tensor * Tensor))
           (fixed_features : option (list (nat * Q)))
           (pending_observations : option (list Tensor)) : bool :=
  is_Ok (assert_bounds bounds0)
  && is_None linear_constraints
  && is_None fixed_features
  && is_None pending_observations.

(** A method leaves the attribute [f] of the object as it found it,
    whether it returns or raises. *)
Definition keeps {Base V T : Type} (f : REMBO Base -> V) (m : M Base T)
  : Prop :=
  forall self, f (snd (m self)) = f self.

(** What [gen] does to the object when it gets as far as the two
    [extend] calls. *)
Definition after_gen {Base : Type} (self : REMBO Base) (b' : Base)
           (Xopt : Tensor) : REMBO Base :=
  extend_X_d_gen (rows Xopt) (extend_X_d (rows Xopt) (set_base b' self)).

(** Row [x] of a batch is answered by store entry [i]: the entry exists
    and its projection is within tolerance of [x]. *)
Definition matched {Base : Type} (self : REMBO Base) (x : vec) (i : nat)
  : Prop :=
  exists z up,
    nth_error (X_d self) i = Some z /\
    project_up_vec self z = Ok up /\
    allclose_vec x up = Ok true.

(** The message of the correspondence failure. *)
Definition unresolved : exn := ValueError "Failed to project X down.".

(** The bound [(-1, 1)] that [fit], [gen] and [best_point] insist on. *)
Definition symmetric_unit (b : bound) : Prop := fst b == -1 /\ snd b == 1.

(** The checks that open [best_point], as one test. *)
Definition best_point_preconditions (bounds0 : list bound)
           (linear_constraints : option (Tensor * Tensor))
           (fixed_features : option (list (nat * Q))) : bool :=
  is_Ok (assert_bounds bounds0)
  && is_None linear_constraints
  && is_None fixed_features.

(** A result that is not an exception of the superclass. *)
Definition no_super {T : Type} (r : result T) : Prop :=
  forall msg, r <> Raise (SuperError msg).

(** A call either stops in this file, leaving the object alone, or it
    reaches the superclass and changes its state only. *)
Definition own_or_super {Base T : Type} (self : REMBO Base)
           (p : result T * REMBO Base) : Prop :=
  (exists e, p = (Raise e, self) /\ forall msg, e <> SuperError msg) \/
  (exists v b', p = (Ok v, set_base b' self)) \/
  (exists msg b', p = (Raise (SuperError msg), set_base b' self)).



Definition in_unit_box (z : Q) : Prop := -1 <= z /\ z <= 1.

(** ** A concrete instance: D = 3, d = 1, A = [[1],[0],[0]] *)

Module Scenario.

Inductive call : Type :=
| Fit (Xs : list Tensor) (ssd : SearchSpaceDigest)
| Predict (X : Tensor)
| Gen (n : Z) (bs : list bound)
| BestPoint (bs : list bound)
| CrossValidate (Xs_train : list Tensor) (X_test : Tensor)
| Update (Xs : list Tensor).

(** A superclass that records each call and answers with constants. *)
Definition Base : Type := list call.

Definition TCM : Type := option (list (string * unit)).

Definition super_init (_ : unit) : Base := [].

Definition super_fit (b : Base) (Xs Ys Yvars : list Tensor)
           (ssd : SearchSpaceDigest) (mn : list string)
           (cm : option (list (list TCM))) : sresult unit * Base :=
  (SOk tt, b ++ [Fit Xs ssd]).

Definition super_predict (b : Base) (X : Tensor)
  : sresult (Tensor * Tensor) * Base :=
  (SOk (mkTensor 1 (map (fun _ => [0]) (rows X)),
        mkTensor 1 (map (fun _ => [1]) (rows X))), b ++ [Predict X]).

Definition super_gen (b : Base) (n : Z) (bs : list bound) (w : vec)
           (oc : option (Tensor * Tensor))
           (mgo : option (list (string * unit)))
  : sresult (Tensor * vec * list (string * unit) * option (list TCM))
    * Base :=
  (SOk (mkTensor (length bs) [map (fun _ => 3 # 4) bs], [1],
        [("expected_acquisition_value"%string, tt)], Some [None]),
   b ++ [Gen n bs]).

Definition super_best_point (b : Base) (bs : list bound) (w : vec)
           (oc : option (Tensor * Tensor))
           (mgo : option (list (string * unit)))
  : sresult (option vec) * Base :=
  (SOk (Some (map (fun _ => 1 # 4) bs)), b ++ [BestPoint bs]).

Definition super_cross_validate (b : Base)
           (Xs Ys Yvars : list Tensor) (X_test : Tensor)
  : sresult (Tensor * Tensor) * Base :=
  (SOk (mkTensor 1 (map (fun _ => [0]) (rows X_test)),
        mkTensor 1 (map (fun _ => [1]) (rows X_test))),
   b ++ [CrossValidate Xs X_test]).

Definition super_update (b : Base) (Xs Ys Yvars : list Tensor)
           (cm : option (list (list TCM))) : sresult unit * Base :=
  (SOk tt, b ++ [Update Xs]).

Definition A0 : Tensor := mkTensor 1 [[1]; [0]; [0]].

(** The pseudo-inverse of [A0]. *)
Definition pinverse (_ : Tensor) : Tensor := mkTensor 3 [[1; 0; 0]].

Definition model : REMBO Base :=
  __init__ super_init pinverse A0 (mkTensor 1 [[0]; [1 # 2]]) [(-1, 1)] tt.

Definition digest : SearchSpaceDigest :=
  mkSearchSpaceDigest ["a"; "b"; "c"]%string [(-1, 1); (-1, 1); (-1, 1)]
                      [] [].

Definition X_seen : Tensor := mkTensor 3 [[0; 0; 0]; [1 # 2; 0; 0]].

Definition Y_seen : Tensor := mkTensor 1 [[1]; [2]].

End Scenario.

(** ** The numeric functions on IEEE binary64 entries

    [project_up], [to_01], [from_01] and [torch.allclose] once more, for
    tensors of dtype [torch.double]: every operation rounds as IEEE 754
    prescribes, and NaN and the infinities behave as they do there.  The
    attributes [A] and [bounds_d] are arguments.  A dot product is summed
    from the last term to the first; torch leaves the order to the
    backend. *)

Module Float64.

Import PrimFloat.
Local Open Scope float_scope.
Local Set Warnings "-inexact-float".

Definition vec := list float.

Record Tensor : Type := mkTensor { shape1 : nat; rows : list vec }.

Definition shape0 (X : Tensor) : nat := length (rows X).

Definition col (j : nat) (X : Tensor) : vec :=
  map (fun r => nth j r 0) (rows X).

Definition t (X : Tensor) : Tensor :=
  mkTensor (shape0 X) (map (fun j => col j X) (seq 0 (shape1 X))).

Definition dot (u v : vec) : float :=
  fold_right add 0 (map (fun p => fst p * snd p) (combine u v)).

Definition matmul (X Y : Tensor) : result Tensor :=
  if (shape1 X =? shape0 Y)%nat then
    Ok (mkTensor (shape1 Y)
          (map (fun r => map (fun j => dot r (col j Y)) (seq 0 (shape1 Y)))
               (rows X)))
  else Raise RuntimeError.

(** [torch.clamp(z, min=lo, max=hi)] on one entry: a NaN fails both
    comparisons and is returned as it is. *)
Definition clamp1 (lo hi z : float) : float :=
  if z <? lo then lo else if hi <? z then hi else z.

Definition clamp (lo hi : float) (Z : Tensor) : Tensor :=
  mkTensor (shape1 Z) (map (map (clamp1 lo hi)) (rows Z)).

Definition project_up (A X : Tensor) : result Tensor :=
  Z <- matmul A (t X) ;;
  Ok (clamp (-1) 1 (t Z)).

Definition rtol : float := 1e-5.
Definition atol : float := 1e-8.

Definition isclose (a b : float) : bool :=
  abs (a - b) <=? atol + rtol * abs b.

Definition allclose (X Y : Tensor) : result bool :=
  match broadcast_dim (shape0 X) (shape0 Y),
        broadcast_dim (shape1 X) (shape1 Y) with
  | Some n, Some c =>
      Ok (all2 (fun r1 r2 => all2 isclose (expand 0 r1 c) (expand 0 r2 c))
               (expand [] (rows X) n) (expand [] (rows Y) n))
  | _, _ => Raise RuntimeError
  end.

Fixpoint upd_nth (i : nat) (f : float -> float) (r : vec) : vec :=
  match r, i with
  | [], _ => []
  | x :: r', O => f x :: r'
  | x :: r', S i' => x :: upd_nth i' f r'
  end.

Definition update_col (i : nat) (f : float -> float) (X : Tensor)
  : result Tensor :=
  if (i <? shape1 X)%nat
  then Ok (mkTensor (shape1 X) (map (upd_nth i f) (rows X)))
  else Raise IndexError.

Definition to_01 (bounds_d : list (float * float)) (X_d0 : Tensor)
  : result Tensor :=
  for_each (enumerate bounds_d)
    (fun '(i, (lb, ub)) X_d01 =>
       update_col i (fun x => (x - lb) / (ub - lb)) X_d01)
    X_d0.

Definition from_01 (bounds_d : list (float * float)) (X_d01 : Tensor)
  : result Tensor :=
  for_each (enumerate bounds_d)
    (fun '(i, (lb, ub)) X_d0 =>
       update_col i (fun x => x * (ub - lb) + lb) X_d0)
    X_d01.

(** An entry that is a number between -1 and 1. *)
Definition in_unit_box (z : float) : Prop :=
  (-1 <=? z) = true /\ (z <=? 1) = true.

End Float64.

(** * Properties *)

(** ** Tolerance comparison *)





Lemma broadcast_dim_same (n : nat) : broadcast_dim n n = Some n.
Proof. unfold broadcast_dim. rewrite Nat.eqb_refl. reflexivity. Qed.



Lemma expand_same {T} (d : T) (l : list T) (k : nat) :
  length l = k -> expand d l k = l.
Proof. intros <-. unfold expand. rewrite Nat.eqb_refl. reflexivity. Qed.



(** ** The bounds transforms *)

Lemma for_each_ext {T S} (l : list T) (f g : T -> S -> result S) (s : S) :
  (forall x s', f x s' = g x s') -> for_each l f s = for_each l g s.
Proof.
  intros H. revert s. induction l as [|x l IH]; intros s; simpl.
  - reflexivity.
  - rewrite H. destruct (g x s); simpl; [apply IH | reflexivity].
Qed.

Lemma affine_row_nil (f : bound -> Q -> Q) (bs : list bound) :
  affine_row f bs [] = [].
Proof. destruct bs; reflexivity. Qed.

Lemma upd_nth_split (f : bound -> Q -> Q) (b : bound) (bs : list bound) :
  forall (k : nat) (r : vec),
    firstn (S k) (upd_nth k (f b) r)
      ++ affine_row f bs (skipn (S k) (upd_nth k (f b) r))
    = firstn k r ++ affine_row f (b :: bs) (skipn k r).
Proof.
  induction k as [|k IH]; intros [|x r]; simpl.
  - apply affine_row_nil.
  - reflexivity.
  - apply affine_row_nil.
  - f_equal. apply IH.
Qed.

Lemma update_cols_from (f : bound -> Q -> Q) (bs : list bound) :
  forall (k : nat) (X : Tensor),
    (k + length bs <= shape1 X)%nat ->
    for_each (combine (seq k (length bs)) bs)
             (fun p X' => update_col (fst p) (f (snd p)) X') X
    = Ok (mkTensor (shape1 X)
            (map (fun r => firstn k r ++ affine_row f bs (skipn k r))
                 (rows X))).
Proof.
  induction bs as [|b bs IH]; intros k X Hk; simpl.
  - destruct X as [c rs]; simpl. f_equal. f_equal.
    rewrite <- (map_id rs) at 1. apply map_ext. intros r.
    symmetry. apply firstn_skipn.
  - unfold update_col at 1. simpl in Hk.
    assert (Hlt : (k <? shape1 X)%nat = true) by (apply Nat.ltb_lt; lia).
    rewrite Hlt. simpl. rewrite IH by (simpl; lia). simpl.
    f_equal. f_equal. rewrite map_map. apply map_ext. intros r.
    apply upd_nth_split.
Qed.

Lemma update_cols_short (f : bound -> Q -> Q) (bs : list bound) :
  forall (k : nat) (X : Tensor),
    (k <= shape1 X < k + length bs)%nat ->
    for_each (combine (seq k (length bs)) bs)
             (fun p X' => update_col (fst p) (f (snd p)) X') X
    = Raise IndexError.
Proof.
  induction bs as [|b bs IH]; intros k X Hk; simpl in *.
  - lia.
  - unfold update_col at 1.
    destruct (k <? shape1 X)%nat eqn:Hlt; simpl; [|reflexivity].
    apply Nat.ltb_lt in Hlt. apply IH. simpl. lia.
Qed.

Section Transforms.

Context {Base : Type}.
Variable self : REMBO Base.

Lemma to_01_rows (X : Tensor) :
  (length (bounds_d self) <= shape1 X)%nat ->
  to_01 self X
  = Ok (mkTensor (shape1 X)
          (map (affine_row to_unit (bounds_d self)) (rows X))).
Proof.
  intros H. unfold to_01, enumerate.
  rewrite (for_each_ext _ _
             (fun p X' => update_col (fst p) (to_unit (snd p)) X')).
  - rewrite update_cols_from by (simpl; lia). reflexivity.
  - intros [i [lb ub]] s'. reflexivity.
Qed.

Lemma from_01_rows (X : Tensor) :
  (length (bounds_d self) <= shape1 X)%nat ->
  from_01 self X
  = Ok (mkTensor (shape1 X)
          (map (affine_row from_unit (bounds_d self)) (rows X))).
Proof.
  intros H. unfold from_01, enumerate.
  rewrite (for_each_ext _ _
             (fun p X' => update_col (fst p) (from_unit (snd p)) X')).
  - rewrite update_cols_from by (simpl; lia). reflexivity.
  - intros [i [lb ub]] s'. reflexivity.
Qed.

Lemma to_01_short (X : Tensor) :
  (shape1 X < length (bounds_d self))%nat ->
  to_01 self X = Raise IndexError.
Proof.
  intros H. unfold to_01, enumerate.
  rewrite (for_each_ext _ _
             (fun p X' => update_col (fst p) (to_unit (snd p)) X')).
  - apply update_cols_short. simpl. lia.
  - intros [i [lb ub]] s'. reflexivity.
Qed.

Lemma from_01_short (X : Tensor) :
  (shape1 X < length (bounds_d self))%nat ->
  from_01 self X = Raise IndexError.
Proof.
  intros H. unfold from_01, enumerate.
  rewrite (for_each_ext _ _
             (fun p X' => update_col (fst p) (from_unit (snd p)) X')).
  - apply update_cols_short. simpl. lia.
  - intros [i [lb ub]] s'. reflexivity.
Qed.

End Transforms.





(** ** Shapes of [project_up] *)

Lemma shape0_t (X : Tensor) : shape0 (t X) = shape1 X.
Proof. unfold shape0, t. simpl. rewrite length_map, length_seq. reflexivity. Qed.

Section Projection.

Context {Base : Type}.
Variable self : REMBO Base.

Lemma project_up_shape_error (X : Tensor) :
  shape1 X <> shape1 (A self) -> project_up self X = Raise RuntimeError.
Proof.
  intros H. unfold project_up, matmul. rewrite shape0_t.
  destruct (Nat.eqb_spec (shape1 (A self)) (shape1 X)) as [E|E].
  - congruence.
  - reflexivity.
Qed.

Lemma project_up_value (X : Tensor) :
  shape1 X = shape1 (A self) ->
  exists Z, matmul (A self) (t X) = Ok Z /\
            shape1 Z = shape0 X /\
            shape0 Z = shape0 (A self) /\
            project_up self X = Ok (clamp (-1) 1 (t Z)).
Proof.
  intros H. unfold project_up, matmul. rewrite shape0_t, H, Nat.eqb_refl.
  eexists. split; [reflexivity|]. simpl.
  split; [reflexivity|]. split; [|reflexivity].
  unfold shape0. simpl. apply length_map.
Qed.

End Projection.

(** ** Correspondence lookup reads only [A] and [X_d] *)

Section Lookup.

Context {Base : Type}.
Variables s1 s2 : REMBO Base.
Hypothesis same_A : A s1 = A s2.
Hypothesis same_X_d : X_d s1 = X_d s2.

Lemma find_match_ext (x_D : vec) (unmatched : list nat) :
  find_match s1 x_D unmatched = find_match s2 x_D unmatched.
Proof.
  induction unmatched as [|i l IH]; simpl; [reflexivity|].
  unfold project_up_vec. rewrite same_A, same_X_d.
  destruct (getitem (X_d s2) i) as [z|e]; simpl; [|reflexivity].
  destruct (matvec (A s2) z) as [Z|e]; simpl; [|reflexivity].
  destruct (allclose_vec x_D (clamp_vec (-1) 1 Z)) as [[|]|e]; simpl;
    [reflexivity | exact IH | reflexivity].
Qed.

Lemma project_down_loop_ext (X_D : list vec) :
  forall (acc : list vec) (unmatched : list nat),
    project_down_loop s1 X_D acc unmatched
    = project_down_loop s2 X_D acc unmatched.
Proof.
  induction X_D as [|x_D rest IH]; intros acc unmatched; simpl;
    [reflexivity|].
  rewrite find_match_ext, same_X_d.
  destruct (find_match s2 x_D unmatched) as [[i|]|e]; simpl;
    try reflexivity.
  destruct (getitem (X_d s2) i) as [z|e]; simpl; [apply IH | reflexivity].
Qed.

Lemma project_down_ext (X_D : Tensor) :
  project_down s1 X_D = project_down s2 X_D.
Proof.
  unfold project_down. rewrite project_down_loop_ext, same_X_d.
  reflexivity.
Qed.

End Lookup.

(** ** [predict] *)

Section Predict.

Context {Base : Type}.
Variable super_predict : Base -> Tensor -> sresult (Tensor * Tensor) * Base.
Variable self : REMBO Base.

Lemma predict_low_d (X : Tensor) :
  shape1 X = shape1 (A self) ->
  predict super_predict X self = forward super_predict self X.
Proof.
  intros H. unfold predict, forward, bind, get_self, lift, ret.
  rewrite H, Nat.eqb_refl.
  destruct (to_01 self X); reflexivity.
Qed.

Lemma predict_high_D (X : Tensor) :
  shape1 X <> shape1 (A self) ->
  predict super_predict X self
  = match matmul X (t (_pinvA self)) with
    | Raise e => (Raise e, self)
    | Ok X_d0 =>
        match matmul X_d0 (t (A self)) with
        | Raise e => (Raise e, self)
        | Ok XA =>
            match allclose X XA with
            | Raise e => (Raise e, self)
            | Ok false => (Raise outside_embedding, self)
            | Ok true => forward super_predict self X_d0
            end
        end
    end.
Proof.
  intros H. unfold predict, forward, bind, get_self, lift, ret, raise.
  destruct (Nat.eqb_spec (shape1 X) (shape1 (A self))) as [E|_];
    [contradiction|].
  destruct (matmul X (t (_pinvA self))) as [X_d0|e]; [|reflexivity].
  destruct (matmul X_d0 (t (A self))) as [XA|e]; [|reflexivity].
  destruct (allclose X XA) as [[|]|e]; reflexivity.
Qed.

Lemma to_01_raises_IndexError (X : Tensor) (e : exn) :
  to_01 self X = Raise e -> e = IndexError.
Proof.
  destruct (Nat.le_gt_cases (length (bounds_d self)) (shape1 X)) as [H|H].
  - rewrite to_01_rows by exact H. discriminate.
  - rewrite to_01_short by exact H. congruence.
Qed.

Lemma forward_not_outside (X_d0 : Tensor) :
  fst (forward super_predict self X_d0) <> Raise outside_embedding.
Proof.
  unfold forward. destruct (to_01 self X_d0) as [X01|e] eqn:E.
  - unfold super. destruct (super_predict (base self) X01) as [[v|msg] b'];
      simpl; discriminate.
  - apply to_01_raises_IndexError in E. subst e. simpl. discriminate.
Qed.

End Predict.



(** C1 (as amended) - The embedding test of [predict].  For an input with
    the D columns of the high-dimensional space, D different from d, on a
    model whose cached pseudo-inverse is d x D and whose [bounds_d] has d
    entries: both matrix products and the comparison are defined, and
    [predict] raises the outside-embedding error exactly when
    [torch.allclose(X, (X @ pinvA^T) @ A^T)] is false - the re-projection
    is the plain product, without the clamp of [project_up].  When the
    comparison is true, [to_01] of [X @ pinvA^T] is defined and is what the
    superclass receives. *)
Theorem predict_embedding_check {Base : Type}
        (super_predict : Base -> Tensor -> sresult (Tensor * Tensor) * Base)
        (self : REMBO Base) (X : Tensor) :
  shape1 X = shape0 (A self) ->
  shape0 (A self) <> shape1 (A self) ->
  shape1 (_pinvA self) = shape0 (A self) ->
  shape0 (_pinvA self) = shape1 (A self) ->
  length (bounds_d self) = shape1 (A self) ->
  exists X_d0 XA c,
    matmul X (t (_pinvA self)) = Ok X_d0 /\
    matmul X_d0 (t (A self)) = Ok XA /\
    allclose X XA = Ok c /\
    (fst (predict super_predict X self) = Raise outside_embedding
     <-> c = false) /\
    (c = false ->
     predict super_predict X self = (Raise outside_embedding, self)) /\
    (c = true ->
     exists X01,
       to_01 self X_d0 = Ok X01 /\
       predict super_predict X self
       = super (fun b => super_predict b X01) self).
Proof.
  intros HX HDd Hp1 Hp0 Hb.
  assert (Hhigh : shape1 X <> shape1 (A self)) by congruence.
  destruct (matmul X (t (_pinvA self))) as [X_d0|e] eqn:E1.
  2:{ unfold matmul in E1. rewrite shape0_t, HX, Hp1, Nat.eqb_refl in E1.
      discriminate. }
  assert (Hs1 : shape1 X_d0 = shape1 (A self) /\ shape0 X_d0 = shape0 X).
  { unfold matmul in E1. rewrite shape0_t, HX, Hp1, Nat.eqb_refl in E1.
    injection E1 as <-. unfold shape0. simpl. rewrite length_map.
    split; [exact Hp0 | reflexivity]. }
  destruct Hs1 as [Hs1 Hs0].
  destruct (matmul X_d0 (t (A self))) as [XA|e] eqn:E2.
  2:{ unfold matmul in E2. rewrite shape0_t, Hs1, Nat.eqb_refl in E2.
      discriminate. }
  assert (HsA : shape1 XA = shape1 X /\ shape0 XA = shape0 X).
  { unfold matmul in E2. rewrite shape0_t, Hs1, Nat.eqb_refl in E2.
    injection E2 as <-. unfold shape0. simpl. rewrite length_map.
    split; [symmetry; exact HX | exact Hs0]. }
  destruct HsA as [HA1 HA0].
  destruct (allclose X XA) as [c|e] eqn:E3.
  2:{ unfold allclose in E3.
      rewrite HA1, HA0, !broadcast_dim_same in E3. discriminate. }
  exists X_d0, XA, c.
  split; [reflexivity|]. split; [exact E2|]. split; [exact E3|].
  rewrite predict_high_D by exact Hhigh. rewrite ?E1, ?E2, ?E3.
  destruct c.
  - split; [|split].
    + split; [|discriminate]. intros H. exfalso.
      exact (forward_not_outside super_predict self X_d0 H).
    + discriminate.
    + intros _. unfold forward.
      rewrite to_01_rows by (rewrite Hs1, Hb; apply Nat.le_refl).
      eexists. split; reflexivity.
  - split; [|split].
    + split; reflexivity.
    + reflexivity.
    + discriminate.
Qed.

(** A point inside the embedding of the scenario model. *)
Lemma predict_embedding_check_witness :
  exists X_d0 XA c,
    matmul (mkTensor 3 [[1 # 2; 0; 0]]) (t (_pinvA Scenario.model))
    = Ok X_d0 /\
    matmul X_d0 (t (A Scenario.model)) = Ok XA /\
    allclose (mkTensor 3 [[1 # 2; 0; 0]]) XA = Ok c /\
    (fst (predict Scenario.super_predict (mkTensor 3 [[1 # 2; 0; 0]])
                  Scenario.model) = Raise outside_embedding
     <-> c = false) /\
    (c = false ->
     predict Scenario.super_predict (mkTensor 3 [[1 # 2; 0; 0]])
             Scenario.model
     = (Raise outside_embedding, Scenario.model)) /\
    (c = true ->
     exists X01,
       to_01 Scenario.model X_d0 = Ok X01 /\
       predict Scenario.super_predict (mkTensor 3 [[1 # 2; 0; 0]])
               Scenario.model
       = super (fun b => Scenario.super_predict b X01) Scenario.model).
Proof.
  apply (predict_embedding_check Scenario.super_predict Scenario.model
           (mkTensor 3 [[1 # 2; 0; 0]])).
  - reflexivity.
  - vm_compute. lia.
  - reflexivity.
  - reflexivity.
  - reflexivity.
Defined.

(** C1 (as stated) fails: the point [(2, 0, 0)] has three columns, its
    pseudo-inverse image is [(2)], and [project_up] of that is the clamped
    [(1, 0, 0)], which is not within tolerance of the input; yet [predict]
    does not raise and the superclass is called with [to_01] of [(2)]. *)
Lemma predict_clamp_counterexample :
  let X := mkTensor 3 [[2; 0; 0]] in
  shape1 X <> shape1 (A Scenario.model) /\
  (exists X_d0 up,
      matmul X (t (_pinvA Scenario.model)) = Ok X_d0 /\
      project_up Scenario.model X_d0 = Ok up /\
      allclose X up = Ok false) /\
  fst (predict Scenario.super_predict X Scenario.model)
  <> Raise outside_embedding /\
  is_Ok (fst (predict Scenario.super_predict X Scenario.model)) = true /\
  base (snd (predict Scenario.super_predict X Scenario.model))
  = [Scenario.Predict (mkTensor 1 [[3 # 2]])].
Proof.
  intros X. split; [vm_compute; lia|]. split.
  - eexists. eexists. split; [reflexivity|]. split; reflexivity.
  - split; [vm_compute; discriminate|]. split; reflexivity.
Qed.

(** ** [_get_single_X] and [fit] *)

Lemma allclose_raises (X Y : Tensor) (e : exn) :
  allclose X Y = Raise e -> e = RuntimeError.
Proof.
  unfold allclose.
  destruct (broadcast_dim (shape0 X) (shape0 Y));
    [destruct (broadcast_dim (shape1 X) (shape1 Y))|];
    congruence.
Qed.

Lemma assert_bounds_raises (bs : list bound) (e : exn) :
  assert_bounds bs = Raise e -> e = AssertionError.
Proof.
  unfold assert_bounds. induction bs as [|b bs IH]; simpl; [discriminate|].
  destruct (bound_eqb b (-1, 1)); simpl.
  - exact IH.
  - congruence.
Qed.

(** The comparison loop of [_get_single_X], from index [a] on. *)
Lemma compare_with_first_fails (Xs : list Tensor) (X Xi : Tensor) (i : nat) :
  nth_error Xs i = Some Xi ->
  allclose X Xi <> Ok true ->
  forall n a : nat,
    (a <= i < a + n)%nat ->
    (a + n <= length Xs)%nat ->
    exists e,
      for_each (seq a n)
               (fun j _ => Xj <- getitem Xs j ;;
                           c <- allclose X Xj ;;
                           assert_ c) tt
      = Raise e /\
      (e = AssertionError \/ e = RuntimeError).
Proof.
  intros Hi Hne. induction n as [|n IH]; intros a Ha Hlen; [lia|].
  simpl. unfold getitem at 1.
  destruct (nth_error Xs a) as [Xa|] eqn:Ea.
  2:{ apply nth_error_None in Ea. lia. }
  simpl. destruct (allclose X Xa) as [[|]|e] eqn:Ec; simpl.
  - destruct (Nat.eq_dec a i) as [->|Hai].
    + rewrite Hi in Ea. injection Ea as ->. contradiction.
    + apply IH; lia.
  - eexists. split; [reflexivity | left; reflexivity].
  - apply allclose_raises in Ec. subst e.
    eexists. split; [reflexivity | right; reflexivity].
Qed.

Lemma _get_single_X_mismatch (Xs : list Tensor) (X0 Xi : Tensor) (i : nat) :
  nth_error Xs 0 = Some X0 ->
  nth_error Xs i = Some Xi ->
  (1 <= i)%nat ->
  allclose X0 Xi <> Ok true ->
  exists e,
    _get_single_X Xs = Raise e /\ (e = AssertionError \/ e = RuntimeError).
Proof.
  intros H0 Hi H1 Hne. unfold _get_single_X, getitem at 1.
  rewrite H0. simpl.
  assert (Hlt : (i < length Xs)%nat).
  { apply nth_error_Some. congruence. }
  destruct (compare_with_first_fails Xs X0 Xi i Hi Hne (length Xs - 1) 1)
    as [e [He Hk]]; [lia | lia |].
  rewrite He. simpl. exists e. split; [reflexivity | exact Hk].
Qed.

Section Fit.

Context {Any Base : Type}.
Variable super_fit :
  Base -> list Tensor -> list Tensor -> list Tensor -> SearchSpaceDigest ->
  list string -> option (list (list (option (list (string * Any))))) ->
  sresult unit * Base.
Variables (Xs Ys Yvars : list Tensor) (ssd : SearchSpaceDigest)
          (metric_names : list string)
          (cm : option (list (list (option (list (string * Any)))))).
Variable self : REMBO Base.

Lemma fit_rejected :
  fit_preconditions ssd = false ->
  fit super_fit Xs Ys Yvars ssd metric_names cm self
  = (Raise AssertionError, self).
Proof.
  unfold fit_preconditions, fit, bind, lift, modify, get_self, assert_.
  destruct (length (task_features ssd) =? 0)%nat; [|reflexivity].
  destruct (length (fidelity_features ssd) =? 0)%nat; [|reflexivity].
  destruct (assert_bounds (bounds ssd)) as [[]|e] eqn:E; simpl;
    [discriminate|].
  apply assert_bounds_raises in E. subst e. reflexivity.
Qed.

Lemma fit_accepted :
  fit_preconditions ssd = true ->
  fit super_fit Xs Ys Yvars ssd metric_names cm self
  = let s1 := set_num_outputs (length Xs) self in
    match _get_single_X Xs with
    | Raise e => (Raise e, s1)
    | Ok X_D =>
        match project_down self X_D with
        | Raise e => (Raise e, s1)
        | Ok X_d0 =>
            match to_01 self X_d0 with
            | Raise e => (Raise e, s1)
            | Ok X01 =>
                super (fun b =>
                  super_fit b (repeat X01 (length Xs)) Ys Yvars
                    (mkSearchSpaceDigest
                       (low_d_feature_names self)
                       (unit_bounds self)
                       (task_features ssd)
                       (fidelity_features ssd))
                    metric_names cm) s1
            end
        end
    end.
Proof.
  unfold fit_preconditions, fit, bind, lift, modify, get_self, assert_.
  destruct (length (task_features ssd) =? 0)%nat; [|discriminate].
  destruct (length (fidelity_features ssd) =? 0)%nat; [|discriminate].
  destruct (assert_bounds (bounds ssd)) as [[]|e]; simpl; [|discriminate].
  intros _.
  destruct (_get_single_X Xs) as [X_D|e]; [|reflexivity].
  rewrite (project_down_ext (set_num_outputs (length Xs) self) self)
    by reflexivity.
  destruct (project_down self X_D) as [X_d0|e]; [|reflexivity].
  change (to_01 (set_num_outputs (length Xs) self) X_d0)
    with (to_01 self X_d0).
  destruct (to_01 self X_d0) as [X01|e]; reflexivity.
Qed.

End Fit.

(** C3 (as amended) - Consistency check of [fit].  If some outcome matrix
    [Xs[i]], [i >= 1], is not [torch.allclose] to the first one [Xs[0]]
    (the comparison is false, or the shapes cannot be broadcast), [fit]
    raises an assertion or shape error and leaves the superclass state,
    the store and the generated log as they were: nothing was normalised
    or delegated.  Only the comparisons with [Xs[0]] are made. *)
Theorem fit_rejects_mismatch_with_first {Any Base : Type}
        (super_fit :
           Base -> list Tensor -> list Tensor -> list Tensor ->
           SearchSpaceDigest -> list string ->
           option (list (list (option (list (string * Any))))) ->
           sresult unit * Base)
        (Xs Ys Yvars : list Tensor) (ssd : SearchSpaceDigest)
        (metric_names : list string)
        (cm : option (list (list (option (list (string * Any))))))
        (self : REMBO Base) (X0 Xi : Tensor) (i : nat) :
  nth_error Xs 0 = Some X0 ->
  nth_error Xs i = Some Xi ->
  (1 <= i)%nat ->
  allclose X0 Xi <> Ok true ->
  exists e self',
    fit super_fit Xs Ys Yvars ssd metric_names cm self = (Raise e, self') /\
    (e = AssertionError \/ e = RuntimeError) /\
    base self' = base self /\
    X_d self' = X_d self /\
    X_d_gen self' = X_d_gen self.
Proof.
  intros H0 Hi H1 Hne.
  destruct (fit_preconditions ssd) eqn:Hpre.
  - rewrite fit_accepted by exact Hpre.
    destruct (_get_single_X_mismatch Xs X0 Xi i H0 Hi H1 Hne) as [e [He Hk]].
    rewrite He. cbv zeta.
    exists e, (set_num_outputs (length Xs) self).
    repeat split; try reflexivity. exact Hk.
  - rewrite fit_rejected by exact Hpre.
    exists AssertionError, self.
    repeat split; try reflexivity. left. reflexivity.
Qed.

(** Two outcome matrices, the second differing in one entry. *)
Lemma fit_rejects_mismatch_with_first_witness :
  exists e self',
    fit Scenario.super_fit
        [Scenario.X_seen; mkTensor 3 [[0; 0; 0]; [1 # 2; 0; 1]]]
        [Scenario.Y_seen; Scenario.Y_seen] [Scenario.Y_seen; Scenario.Y_seen]
        Scenario.digest ["m1"; "m2"]%string None Scenario.model
    = (Raise e, self') /\
    (e = AssertionError \/ e = RuntimeError) /\
    base self' = base Scenario.model /\
    X_d self' = X_d Scenario.model /\
    X_d_gen self' = X_d_gen Scenario.model.
Proof.
  apply (fit_rejects_mismatch_with_first Scenario.super_fit
           [Scenario.X_seen; mkTensor 3 [[0; 0; 0]; [1 # 2; 0; 1]]]
           [Scenario.Y_seen; Scenario.Y_seen]
           [Scenario.Y_seen; Scenario.Y_seen]
           Scenario.digest ["m1"; "m2"]%string None Scenario.model
           Scenario.X_seen (mkTensor 3 [[0; 0; 0]; [1 # 2; 0; 1]]) 1).
  - reflexivity.
  - reflexivity.
  - lia.
  - vm_compute. discriminate.
Defined.

(** C3 (as stated) fails: the second and third matrices below differ from
    each other beyond tolerance in their first entry ([1e-8] against
    [-1e-8]), in either order of comparison, while each is within
    tolerance of the first; [fit] returns normally and the superclass
    has been called. *)
Lemma fit_pairwise_counterexample :
  let X1 := mkTensor 3 [[1 # 100000000; 0; 0]; [1 # 2; 0; 0]] in
  let X2 := mkTensor 3 [[-1 # 100000000; 0; 0]; [1 # 2; 0; 0]] in
  let Ys := [Scenario.Y_seen; Scenario.Y_seen; Scenario.Y_seen] in
  allclose X1 X2 = Ok false /\
  allclose X2 X1 = Ok false /\
  fst (fit Scenario.super_fit [Scenario.X_seen; X1; X2] Ys Ys
           Scenario.digest ["m1"; "m2"; "m3"]%string None Scenario.model)
  = Ok tt /\
  length (base (snd (fit Scenario.super_fit [Scenario.X_seen; X1; X2] Ys Ys
                         Scenario.digest ["m1"; "m2"; "m3"]%string None
                         Scenario.model)))
  = 1%nat.
Proof.
  intros X1 X2 Ys. repeat split; reflexivity.
Qed.

(** C9 - [fit] is not atomic in [num_outputs].  Once the domain checks have
    passed, a failure of the consistency check [_get_single_X] or of the
    correspondence lookup [project_down] leaves the object with
    [num_outputs] already set to [len(Xs)] and everything else as it was;
    the error raised is the one of the failing step. *)
Theorem fit_sets_num_outputs_before_failing {Any Base : Type}
        (super_fit :
           Base -> list Tensor -> list Tensor -> list Tensor ->
           SearchSpaceDigest -> list string ->
           option (list (list (option (list (string * Any))))) ->
           sresult unit * Base)
        (Xs Ys Yvars : list Tensor) (ssd : SearchSpaceDigest)
        (metric_names : list string)
        (cm : option (list (list (option (list (string * Any))))))
        (self : REMBO Base) (e : exn) :
  fit_preconditions ssd = true ->
  (_get_single_X Xs = Raise e \/
   exists X_D, _get_single_X Xs = Ok X_D /\ project_down self X_D = Raise e) ->
  fit super_fit Xs Ys Yvars ssd metric_names cm self
  = (Raise e, set_num_outputs (length Xs) self) /\
  num_outputs (snd (fit super_fit Xs Ys Yvars ssd metric_names cm self))
  = length Xs.
Proof.
  intros Hpre Hfail.
  assert (H : fit super_fit Xs Ys Yvars ssd metric_names cm self
              = (Raise e, set_num_outputs (length Xs) self)).
  { rewrite fit_accepted by exact Hpre. cbv zeta.
    destruct Hfail as [H1 | [X_D [H1 H2]]].
    - rewrite H1. reflexivity.
    - rewrite H1, H2. reflexivity. }
  split; [exact H | rewrite H; reflexivity].
Qed.

(** A correspondence failure: the design matrix holds a point that no
    stored point projects to; [num_outputs] moves from 0 to 1. *)
Lemma fit_sets_num_outputs_before_failing_witness :
  fit Scenario.super_fit [mkTensor 3 [[1 # 4; 0; 0]]] [Scenario.Y_seen]
      [Scenario.Y_seen] Scenario.digest ["m"]%string None Scenario.model
  = (Raise (ValueError "Failed to project X down."),
     set_num_outputs 1 Scenario.model) /\
  num_outputs
    (snd (fit Scenario.super_fit [mkTensor 3 [[1 # 4; 0; 0]]]
              [Scenario.Y_seen] [Scenario.Y_seen] Scenario.digest
              ["m"]%string None Scenario.model))
  = 1%nat.
Proof.
  apply (fit_sets_num_outputs_before_failing Scenario.super_fit
           [mkTensor 3 [[1 # 4; 0; 0]]] [Scenario.Y_seen] [Scenario.Y_seen]
           Scenario.digest ["m"]%string None Scenario.model
           (ValueError "Failed to project X down.")).
  - reflexivity.
  - right. exists (mkTensor 3 [[1 # 4; 0; 0]]). split; reflexivity.
Defined.

(** ** Frame rules for methods *)

Section Frame.

Context {Base V : Type}.
Variable f : REMBO Base -> V.

Lemma keeps_ret {T} (v : T) : keeps f (ret v).
Proof. intros s. reflexivity. Qed.

Lemma keeps_lift {T} (r : result T) : keeps f (lift r).
Proof. intros s. reflexivity. Qed.

Lemma keeps_raise {T} (e : exn) : keeps f (@raise Base T e).
Proof. intros s. reflexivity. Qed.

Lemma keeps_get_self : keeps f get_self.
Proof. intros s. reflexivity. Qed.

Lemma keeps_modify (g : REMBO Base -> REMBO Base) :
  (forall s, f (g s) = f s) -> keeps f (modify g).
Proof. intros H s. apply H. Qed.

Lemma keeps_super {T} (m : Base -> sresult T * Base) :
  (forall b s, f (set_base b s) = f s) -> keeps f (super m).
Proof.
  intros H s. unfold super.
  destruct (m (base s)) as [[v|msg] b']; apply H.
Qed.

Lemma keeps_bind {T U} (m : M Base T) (k : T -> M Base U) :
  keeps f m -> (forall v, keeps f (k v)) -> keeps f (bind m k).
Proof.
  intros Hm Hk s. unfold bind.
  specialize (Hm s).
  destruct (m s) as [[v|e] s']; simpl in Hm.
  - rewrite (Hk v s'). exact Hm.
  - exact Hm.
Qed.

End Frame.

Ltac keeps_all :=
  repeat first
    [ apply keeps_bind; [|intros ?]
    | apply keeps_lift
    | apply keeps_ret
    | apply keeps_raise
    | apply keeps_get_self
    | apply keeps_super; solve [auto]
    | apply keeps_modify; solve [auto]
    | match goal with
      | |- keeps _ (if ?c then _ else _) => destruct c
      | |- keeps _ (match ?x with _ => _ end) => destruct x
      end ].

Section MethodFrames.

Context {Any Base : Type}.
Variable super_fit :
  Base -> list Tensor -> list Tensor -> list Tensor -> SearchSpaceDigest ->
  list string -> option (list (list (option (list (string * Any))))) ->
  sresult unit * Base.
Variable super_predict : Base -> Tensor -> sresult (Tensor * Tensor) * Base.
Variable super_gen :
  Base -> Z -> list bound -> vec -> option (Tensor * Tensor) ->
  option (list (string * Any)) ->
  sresult (Tensor * vec * list (string * Any)
           * option (list (option (list (string * Any))))) * Base.
Variable super_best_point :
  Base -> list bound -> vec -> option (Tensor * Tensor) ->
  option (list (string * Any)) -> sresult (option vec) * Base.
Variable super_cross_validate :
  Base -> list Tensor -> list Tensor -> list Tensor -> Tensor ->
  sresult (Tensor * Tensor) * Base.
Variable super_update :
  Base -> list Tensor -> list Tensor -> list Tensor ->
  option (list (list (option (list (string * Any))))) -> sresult unit * Base.

(** Attributes that neither [set_base] nor [set_num_outputs] touches. *)
Variable V : Type.
Variable f : REMBO Base -> V.
Hypothesis f_base : forall b s, f (set_base b s) = f s.
Hypothesis f_num : forall n s, f (set_num_outputs n s) = f s.

Lemma fit_keeps Xs Ys Yvars ssd mn cm :
  keeps f (fit super_fit Xs Ys Yvars ssd mn cm).
Proof.
  unfold fit.
  keeps_all.
Qed.

Lemma predict_keeps X : keeps f (predict super_predict X).
Proof.
  unfold predict.
  keeps_all.
Qed.

Lemma best_point_keeps bs w oc lc ff mgo :
  keeps f (best_point super_best_point bs w oc lc ff mgo).
Proof.
  unfold best_point.
  keeps_all.
Qed.

Lemma cross_validate_keeps Xs Ys Yvars X_test :
  keeps f (cross_validate super_cross_validate Xs Ys Yvars X_test).
Proof.
  unfold cross_validate.
  keeps_all.
Qed.

Lemma update_keeps Xs Ys Yvars cm :
  keeps f (update super_update Xs Ys Yvars cm).
Proof.
  unfold update.
  keeps_all.
Qed.

End MethodFrames.

(** ** [gen] *)

Section Gen.

Context {Any Base : Type}.
Variable super_gen :
  Base -> Z -> list bound -> vec -> option (Tensor * Tensor) ->
  option (list (string * Any)) ->
  sresult (Tensor * vec * list (string * Any)
           * option (list (option (list (string * Any))))) * Base.
Variables (n : Z) (bounds0 : list bound) (w : vec)
          (oc lc : option (Tensor * Tensor))
          (ff : option (list (nat * Q))) (po : option (list Tensor))
          (mgo : option (list (string * Any))).
Variable self : REMBO Base.

Lemma gen_rejected :
  gen_preconditions bounds0 lc ff po = false ->
  gen super_gen n bounds0 w oc lc ff po mgo self
  = (Raise AssertionError, self).
Proof.
  unfold gen_preconditions, gen, bind, lift, assert_.
  destruct (assert_bounds bounds0) as [[]|e] eqn:E; simpl.
  - destruct (is_None lc); [|reflexivity].
    destruct (is_None ff); [|reflexivity].
    destruct (is_None po); [discriminate | reflexivity].
  - apply assert_bounds_raises in E. subst e. reflexivity.
Qed.

Lemma gen_accepted :
  gen_preconditions bounds0 lc ff po = true ->
  gen super_gen n bounds0 w oc lc ff po mgo self
  = match super_gen (base self) n (unit_bounds self) w oc mgo with
    | (SRaise msg, b') => (Raise (SuperError msg), set_base b' self)
    | (SOk (Xopt_01, w', _, _), b') =>
        match from_01 self Xopt_01 with
        | Raise e => (Raise e, set_base b' self)
        | Ok Xopt =>
            match project_up self Xopt with
            | Raise e => (Raise e, after_gen self b' Xopt)
            | Ok up => (Ok (up, w', [], None), after_gen self b' Xopt)
            end
        end
    end.
Proof.
  unfold gen_preconditions, gen, bind, lift, assert_, get_self, super,
    modify, ret, after_gen.
  destruct (assert_bounds bounds0) as [[]|e]; simpl; [|discriminate].
  destruct (is_None lc); [|discriminate].
  destruct (is_None ff); [|discriminate].
  destruct (is_None po); [|discriminate].
  intros _. simpl.
  destruct (super_gen (base self) n (unit_bounds self) w oc mgo)
    as [[[[[Xopt_01 w'] gm] cmm]|msg] b']; [|reflexivity].
  destruct (from_01 self Xopt_01) as [Xopt|e]; [|reflexivity].
  destruct (project_up self Xopt) as [up|e]; reflexivity.
Qed.

Lemma from_01_Ok_rows (Xopt_01 Xopt : Tensor) :
  from_01 self Xopt_01 = Ok Xopt ->
  shape1 Xopt = shape1 Xopt_01 /\
  rows Xopt = map (affine_row from_unit (bounds_d self)) (rows Xopt_01).
Proof.
  destruct (Nat.le_gt_cases (length (bounds_d self)) (shape1 Xopt_01))
    as [H|H].
  - rewrite from_01_rows by exact H. intros E. injection E as <-.
    split; reflexivity.
  - rewrite from_01_short by exact H. discriminate.
Qed.

End Gen.

(** C4 - What a successful [gen] does.  [gen] returns normally exactly
    when its checks pass (every declared bound equals [(-1, 1)]; no linear
    constraints, fixed features or pending observations), the superclass
    [gen], called with one bound [(0, 1)] per entry of [bounds_d] and the
    caller's [n], weights, outcome constraints and options, returns
    candidates [Xopt_01] wide enough for [from_01], and the mapped-back
    candidates have the width [project_up] needs.  It then returns the
    [project_up] image of the mapped-back candidates with the superclass's
    weights, an empty metadata dictionary and no candidate metadata; the
    rows of the mapped-back candidates - each entry [x * (ub - lb) + lb] -
    have been appended, in order, to both [X_d] and [X_d_gen]; the
    superclass state is the one its [gen] left; nothing else changed. *)
Theorem gen_appends_and_projects {Any Base : Type}
        (super_gen :
           Base -> Z -> list bound -> vec -> option (Tensor * Tensor) ->
           option (list (string * Any)) ->
           sresult (Tensor * vec * list (string * Any)
                    * option (list (option (list (string * Any))))) * Base)
        (n : Z) (bounds0 : list bound) (w : vec)
        (oc lc : option (Tensor * Tensor))
        (ff : option (list (nat * Q))) (po : option (list Tensor))
        (mgo : option (list (string * Any)))
        (self self' : REMBO Base)
        (out : Tensor * vec * list (string * Any)
               * option (list (option (list (string * Any))))) :
  gen super_gen n bounds0 w oc lc ff po mgo self = (Ok out, self') <->
  exists Xopt_01 w' gm cmm b' Xopt up,
    gen_preconditions bounds0 lc ff po = true /\
    super_gen (base self) n (repeat (0, 1) (length (bounds_d self))) w oc mgo
    = (SOk (Xopt_01, w', gm, cmm), b') /\
    from_01 self Xopt_01 = Ok Xopt /\
    rows Xopt = map (affine_row from_unit (bounds_d self)) (rows Xopt_01) /\
    project_up self Xopt = Ok up /\
    out = (up, w', [], None) /\
    self' = mkREMBO (A self) (_pinvA self)
                    (X_d self ++ rows Xopt) (X_d_gen self ++ rows Xopt)
                    (bounds_d self) (num_outputs self) b'.
Proof.
  split.
  - intros H.
    destruct (gen_preconditions bounds0 lc ff po) eqn:Hpre.
    2:{ rewrite gen_rejected in H by exact Hpre. discriminate. }
    rewrite gen_accepted in H by exact Hpre. unfold unit_bounds in H.
    destruct (super_gen (base self) n
                (repeat (0, 1) (length (bounds_d self))) w oc mgo)
      as [[[[[Xopt_01 w'] gm] cmm]|msg] b'] eqn:Es; [|discriminate].
    destruct (from_01 self Xopt_01) as [Xopt|e] eqn:Ef; [|discriminate].
    destruct (project_up self Xopt) as [up|e] eqn:Eu; [|discriminate].
    injection H as <- <-.
    exists Xopt_01, w', gm, cmm, b', Xopt, up.
    destruct (from_01_Ok_rows self Xopt_01 Xopt Ef) as [_ Hr].
    repeat split; auto.
  - intros [Xopt_01 [w' [gm [cmm [b' [Xopt [up H]]]]]]].
    destruct H as [Hpre [Es [Ef [_ [Eu [-> ->]]]]]].
    rewrite gen_accepted by exact Hpre. unfold unit_bounds.
    rewrite Es, Ef, Eu. reflexivity.
Qed.

(** One candidate at [3/4] of the unit interval maps back to [1/2] in
    [(-1, 1)] and projects to [(1/2, 0, 0)]. *)
Lemma gen_appends_and_projects_witness :
  gen Scenario.super_gen 1 [(-1, 1); (-1, 1); (-1, 1)] [1] None None None
      None None Scenario.model
  = (Ok (mkTensor 3 [[2 # 4; 0 # 4; 0 # 4]], [1], [], None),
     mkREMBO (A Scenario.model) (_pinvA Scenario.model)
             (X_d Scenario.model ++ [[2 # 4]])
             (X_d_gen Scenario.model ++ [[2 # 4]])
             (bounds_d Scenario.model) (num_outputs Scenario.model)
             [Scenario.Gen 1 [(0, 1)]]).
Proof.
  apply (proj2 (gen_appends_and_projects Scenario.super_gen 1
                  [(-1, 1); (-1, 1); (-1, 1)] [1] None None None None None
                  Scenario.model _ _)).
  exists (mkTensor 1 [[3 # 4]]), [1],
    [("expected_acquisition_value"%string, tt)], (Some [None]),
    [Scenario.Gen 1 [(0, 1)]], (mkTensor 1 [[2 # 4]]),
    (mkTensor 3 [[2 # 4; 0 # 4; 0 # 4]]).
  repeat split; reflexivity.
Defined.

(** ** [update] and [cross_validate] *)

Section Replication.

Context {Any Base : Type}.
Variable super_update :
  Base -> list Tensor -> list Tensor -> list Tensor ->
  option (list (list (option (list (string * Any))))) -> sresult unit * Base.
Variable super_cross_validate :
  Base -> list Tensor -> list Tensor -> list Tensor -> Tensor ->
  sresult (Tensor * Tensor) * Base.
Variable self : REMBO Base.

Lemma update_unfold Xs Ys Yvars cm :
  update super_update Xs Ys Yvars cm self
  = match _get_single_X Xs with
    | Raise e => (Raise e, self)
    | Ok X_D =>
        match project_down self X_D with
        | Raise e => (Raise e, self)
        | Ok X_d0 =>
            match to_01 self X_d0 with
            | Raise e => (Raise e, self)
            | Ok X01 =>
                super (fun b =>
                  super_update b (repeat X01 (num_outputs self)) Ys Yvars cm)
                  self
            end
        end
    end.
Proof.
  unfold update, bind, lift, get_self.
  destruct (_get_single_X Xs) as [X_D|e]; [|reflexivity].
  destruct (project_down self X_D) as [X_d0|e]; [|reflexivity].
  destruct (to_01 self X_d0) as [X01|e]; reflexivity.
Qed.

Lemma cross_validate_unfold Xs Ys Yvars X_test :
  cross_validate super_cross_validate Xs Ys Yvars X_test self
  = match _get_single_X Xs with
    | Raise e => (Raise e, self)
    | Ok X_D =>
        match project_down self X_D with
        | Raise e => (Raise e, self)
        | Ok X_train_d =>
            match project_down self X_test with
            | Raise e => (Raise e, self)
            | Ok X_test_d =>
                match to_01 self X_train_d with
                | Raise e => (Raise e, self)
                | Ok X_train01 =>
                    match to_01 self X_test_d with
                    | Raise e => (Raise e, self)
                    | Ok X_test01 =>
                        super (fun b =>
                          super_cross_validate b
                            (repeat X_train01 (num_outputs self))
                            Ys Yvars X_test01) self
                    end
                end
            end
        end
    end.
Proof.
  unfold cross_validate, bind, lift, get_self.
  destruct (_get_single_X Xs) as [X_D|e]; [|reflexivity].
  destruct (project_down self X_D) as [X_train_d|e]; [|reflexivity].
  destruct (project_down self X_test) as [X_test_d|e]; [|reflexivity].
  destruct (to_01 self X_train_d) as [X_train01|e]; [|reflexivity].
  destruct (to_01 self X_test_d) as [X_test01|e]; reflexivity.
Qed.

End Replication.

Lemma fit_num_outputs {Any Base : Type}
      (super_fit :
         Base -> list Tensor -> list Tensor -> list Tensor ->
         SearchSpaceDigest -> list string ->
         option (list (list (option (list (string * Any))))) ->
         sresult unit * Base)
      Xs Ys Yvars ssd mn cm (self : REMBO Base) :
  fit_preconditions ssd = true ->
  num_outputs (snd (fit super_fit Xs Ys Yvars ssd mn cm self)) = length Xs.
Proof.
  intros Hpre. rewrite fit_accepted by exact Hpre. cbv zeta.
  destruct (_get_single_X Xs) as [X_D|e]; [|reflexivity].
  destruct (project_down self X_D) as [X_d0|e]; [|reflexivity].
  destruct (to_01 self X_d0) as [X01|e]; [|reflexivity].
  unfold super.
  match goal with
  | |- context [match ?p with _ => _ end] => destruct p as [[v|msg] b']
  end; reflexivity.
Qed.

(** ** The store and the generated log across operations *)

Section Operations.

Context {Any Base : Type}.
Variable super_fit :
  Base -> list Tensor -> list Tensor -> list Tensor -> SearchSpaceDigest ->
  list string -> option (list (list (option (list (string * Any))))) ->
  sresult unit * Base.
Variable super_predict : Base -> Tensor -> sresult (Tensor * Tensor) * Base.
Variable super_gen :
  Base -> Z -> list bound -> vec -> option (Tensor * Tensor) ->
  option (list (string * Any)) ->
  sresult (Tensor * vec * list (string * Any)
           * option (list (option (list (string * Any))))) * Base.
Variable super_best_point :
  Base -> list bound -> vec -> option (Tensor * Tensor) ->
  option (list (string * Any)) -> sresult (option vec) * Base.
Variable super_cross_validate :
  Base -> list Tensor -> list Tensor -> list Tensor -> Tensor ->
  sresult (Tensor * Tensor) * Base.
Variable super_update :
  Base -> list Tensor -> list Tensor -> list Tensor ->
  option (list (list (option (list (string * Any))))) -> sresult unit * Base.

Local Abbreviation step :=
  (run super_fit super_predict super_gen super_best_point
       super_cross_validate super_update).
Local Abbreviation steps :=
  (run_all super_fit super_predict super_gen super_best_point
           super_cross_validate super_update).

(** Any attribute other than [base] and [num_outputs] survives every
    operation but [gen]. *)
Lemma step_keeps {V} (f : REMBO Base -> V) (o : op Any) (self : REMBO Base) :
  (forall b s, f (set_base b s) = f s) ->
  (forall n s, f (set_num_outputs n s) = f s) ->
  is_gen o = false ->
  f (snd (step o self)) = f self.
Proof.
  intros Hb Hn Ho. unfold step, run, outcome.
  destruct o; simpl; try discriminate.
  - apply fit_keeps; assumption.
  - apply predict_keeps; assumption.
  - apply best_point_keeps; assumption.
  - apply cross_validate_keeps; assumption.
  - apply update_keeps; assumption.
Qed.

(** The three objects a [gen] call can leave. *)
Lemma gen_leaves n bs w oc lc ff po mgo (self : REMBO Base) :
  let r := gen super_gen n bs w oc lc ff po mgo self in
  snd r = self \/
  (exists b', snd r = set_base b' self) \/
  (exists b' Xopt, snd r = after_gen self b' Xopt).
Proof.
  cbv zeta. destruct (gen_preconditions bs lc ff po) eqn:Hpre.
  - rewrite gen_accepted by exact Hpre.
    destruct (super_gen (base self) n (unit_bounds self) w oc mgo)
      as [[[[[Xopt_01 w'] gm] cmm]|msg] b'].
    + destruct (from_01 self Xopt_01) as [Xopt|e].
      * right. right. exists b', Xopt.
        destruct (project_up self Xopt); reflexivity.
      * right. left. exists b'. reflexivity.
    + right. left. exists b'. reflexivity.
  - rewrite gen_rejected by exact Hpre. left. reflexivity.
Qed.

Lemma step_keeps_config (o : op Any) (self : REMBO Base) :
  A (snd (step o self)) = A self /\
  _pinvA (snd (step o self)) = _pinvA self /\
  bounds_d (snd (step o self)) = bounds_d self.
Proof.
  destruct (is_gen o) eqn:Ho.
  - destruct o; try discriminate. unfold step, run, outcome. simpl.
    destruct (gen_leaves n bounds0 w oc lc ff po mgo self)
      as [H | [[b' H] | [b' [Xopt H]]]];
      rewrite H; repeat split; reflexivity.
  - repeat split; apply step_keeps; auto.
Qed.

Lemma step_grows (o : op Any) (self : REMBO Base) :
  exists new,
    X_d (snd (step o self)) = X_d self ++ new /\
    X_d_gen (snd (step o self)) = X_d_gen self ++ new.
Proof.
  destruct (is_gen o) eqn:Ho.
  - destruct o; try discriminate. unfold step, run, outcome. simpl.
    destruct (gen_leaves n bounds0 w oc lc ff po mgo self)
      as [H | [[b' H] | [b' [Xopt H]]]]; rewrite H.
    + exists []. rewrite !app_nil_r. split; reflexivity.
    + exists []. rewrite !app_nil_r. split; reflexivity.
    + exists (rows Xopt). split; reflexivity.
  - exists []. rewrite !app_nil_r.
    split; apply step_keeps; auto.
Qed.

Lemma steps_grow (os : list (op Any)) :
  forall self : REMBO Base,
  exists new,
    X_d (steps os self) = X_d self ++ new /\
    X_d_gen (steps os self) = X_d_gen self ++ new.
Proof.
  induction os as [|o os IH]; intros self; simpl.
  - exists []. rewrite !app_nil_r. split; reflexivity.
  - destruct (step_grows o self) as [new1 [H1 H1g]].
    destruct (IH (snd (step o self))) as [new2 [H2 H2g]].
    exists (new1 ++ new2). unfold steps in *. simpl. fold step.
    rewrite H2, H2g, H1, H1g, <- !app_assoc. split; reflexivity.
Qed.

(** A [gen] that raises leaves the store alone, provided the superclass
    returns candidates with one column per bound it was given and the
    model has one bound per column of [A]. *)
Lemma gen_raising_keeps_store n bs w oc lc ff po mgo (self : REMBO Base) :
  length (bounds_d self) = shape1 (A self) ->
  (forall b n' bs' w' oc' mgo' X w'' g c b',
      super_gen b n' bs' w' oc' mgo' = (SOk (X, w'', g, c), b') ->
      shape1 X = length bs') ->
  is_Ok (fst (gen super_gen n bs w oc lc ff po mgo self)) = false ->
  X_d (snd (gen super_gen n bs w oc lc ff po mgo self)) = X_d self /\
  X_d_gen (snd (gen super_gen n bs w oc lc ff po mgo self)) = X_d_gen self.
Proof.
  intros Hcfg Hgen.
  destruct (gen_preconditions bs lc ff po) eqn:Hpre.
  2:{ rewrite gen_rejected by exact Hpre. split; reflexivity. }
  rewrite gen_accepted by exact Hpre.
  destruct (super_gen (base self) n (unit_bounds self) w oc mgo)
    as [[[[[Xopt_01 w'] gm] cmm]|msg] b'] eqn:Es; [|split; reflexivity].
  destruct (from_01 self Xopt_01) as [Xopt|e] eqn:Ef; [|split; reflexivity].
  apply Hgen in Es. unfold unit_bounds in Es. rewrite repeat_length in Es.
  destruct (from_01_Ok_rows self Xopt_01 Xopt Ef) as [Hw _].
  destruct (project_up_value self Xopt) as [Z [_ [_ [_ Hup]]]];
    [congruence|].
  rewrite Hup. simpl. discriminate.
Qed.

(** [num_outputs] is written by [fit] alone. *)
Lemma step_keeps_num_outputs (o : op Any) (self : REMBO Base) :
  is_fit o = false ->
  num_outputs (snd (step o self)) = num_outputs self.
Proof.
  intros Ho. unfold step, run, outcome.
  destruct o; simpl; try discriminate.
  - apply predict_keeps. reflexivity.
  - destruct (gen_leaves n bounds0 w oc lc ff po mgo self)
      as [H | [[b' H] | [b' [Xopt H]]]]; rewrite H; reflexivity.
  - apply best_point_keeps. reflexivity.
  - apply cross_validate_keeps. reflexivity.
  - apply update_keeps. reflexivity.
Qed.

Lemma steps_keep_num_outputs (os : list (op Any)) :
  forallb (fun o => negb (is_fit o)) os = true ->
  forall self : REMBO Base,
    num_outputs (steps os self) = num_outputs self.
Proof.
  induction os as [|o os IH]; simpl; intros Hos self; [reflexivity|].
  apply andb_true_iff in Hos. destruct Hos as [Ho Hos].
  apply negb_true_iff in Ho.
  unfold steps in *. simpl. fold step.
  rewrite IH by exact Hos. apply step_keeps_num_outputs. exact Ho.
Qed.

(** C7 (as amended) - The store and the generated log are append-only.
    On a model with one bound per column of [A], over a superclass whose [gen]
    returns candidates with one column per bound it is given: a [gen] call
    that returns appends the same points to the end of [X_d] and of
    [X_d_gen]; every other call - [fit], [predict], [best_point],
    [cross_validate], [update], and a [gen] that raises - leaves both
    lists exactly as they were, whether it returns or raises; the
    configuration the hypothesis speaks of is itself preserved.  Over any
    sequence of calls the old lists are prefixes of the new ones, extended
    by the same points, and construction starts the store at the initial
    points and the log empty, so the store is always the initial points
    followed by the log. *)
Theorem store_append_only (self : REMBO Base) (o : op Any) :
  length (bounds_d self) = shape1 (A self) ->
  (forall b n bs w oc mgo X w' g c b',
      super_gen b n bs w oc mgo = (SOk (X, w', g, c), b') ->
      shape1 X = length bs) ->
  (if is_gen o && fst (step o self)
   then exists new,
       X_d (snd (step o self)) = X_d self ++ new /\
       X_d_gen (snd (step o self)) = X_d_gen self ++ new
   else X_d (snd (step o self)) = X_d self /\
        X_d_gen (snd (step o self)) = X_d_gen self) /\
  length (bounds_d (snd (step o self))) = shape1 (A (snd (step o self))) /\
  (forall os, exists new,
      X_d (steps os self) = X_d self ++ new /\
      X_d_gen (steps os self) = X_d_gen self ++ new) /\
  (forall (Kwargs : Type) (super_init : Kwargs -> Base) pinverse A0
          initial_X_d bounds_d0 kwargs os,
      let s0 := __init__ super_init pinverse A0 initial_X_d bounds_d0 kwargs in
      X_d s0 = rows initial_X_d /\
      X_d_gen s0 = [] /\
      X_d (steps os s0) = rows initial_X_d ++ X_d_gen (steps os s0)).
Proof.
  intros Hcfg Hgen. split; [|split; [|split]].
  - destruct (is_gen o) eqn:Ho; simpl.
    + destruct (fst (step o self)) eqn:Hok.
      * apply step_grows.
      * destruct o; try discriminate. unfold step, run, outcome in *.
        simpl in *. apply gen_raising_keeps_store; assumption.
    + split; apply step_keeps; auto.
  - destruct (step_keeps_config o self) as [HA [_ Hb]].
    rewrite HA, Hb. exact Hcfg.
  - intros os. apply steps_grow.
  - intros Kwargs super_init pinverse A0 initial_X_d bounds_d0 kwargs os s0.
    split; [reflexivity|]. split; [reflexivity|].
    destruct (steps_grow os s0) as [new [H1 H2]].
    rewrite H1, H2. reflexivity.
Qed.

(** C8 - The replication count of [update] and [cross_validate].  When the
    shared design matrix of the call resolves and normalises to [X01], the
    superclass receives [X01] repeated [num_outputs] times, whatever the
    number of matrices in the call itself.  If the last [fit] whose domain
    checks passed was given [k] matrices and no [fit] was called since,
    that count is [k]; on a model on which no [fit] was called since
    construction it is 0 and the superclass receives the empty list. *)
Theorem update_cross_validate_replicate
        (self : REMBO Base) (Xs Ys Yvars : list Tensor)
        (cm : option (list (list (option (list (string * Any))))))
        (X_test X_D X_d0 X01 X_test_d X_test01 : Tensor) :
  _get_single_X Xs = Ok X_D ->
  project_down self X_D = Ok X_d0 ->
  to_01 self X_d0 = Ok X01 ->
  project_down self X_test = Ok X_test_d ->
  to_01 self X_test_d = Ok X_test01 ->
  update super_update Xs Ys Yvars cm self
  = super (fun b => super_update b (repeat X01 (num_outputs self)) Ys Yvars cm)
          self /\
  cross_validate super_cross_validate Xs Ys Yvars X_test self
  = super (fun b =>
             super_cross_validate b (repeat X01 (num_outputs self))
                                  Ys Yvars X_test01) self /\
  (forall s0 Xs_fit Ys_fit Yvars_fit ssd mn cm_fit os,
      fit_preconditions ssd = true ->
      forallb (fun o => negb (is_fit o)) os = true ->
      self = steps os
               (snd (fit super_fit Xs_fit Ys_fit Yvars_fit ssd mn cm_fit s0)) ->
      update super_update Xs Ys Yvars cm self
      = super (fun b =>
                 super_update b (repeat X01 (length Xs_fit)) Ys Yvars cm)
              self /\
      cross_validate super_cross_validate Xs Ys Yvars X_test self
      = super (fun b =>
                 super_cross_validate b (repeat X01 (length Xs_fit))
                                      Ys Yvars X_test01) self) /\
  (forall (Kwargs : Type) (super_init : Kwargs -> Base) pinverse A0
          initial_X_d bounds_d0 kwargs os,
      forallb (fun o => negb (is_fit o)) os = true ->
      self = steps os
               (__init__ super_init pinverse A0 initial_X_d bounds_d0 kwargs) ->
      update super_update Xs Ys Yvars cm self
      = super (fun b => super_update b [] Ys Yvars cm) self /\
      cross_validate super_cross_validate Xs Ys Yvars X_test self
      = super (fun b => super_cross_validate b [] Ys Yvars X_test01) self).
Proof.
  intros H1 H2 H3 H4 H5.
  assert (Hu : update super_update Xs Ys Yvars cm self
               = super (fun b =>
                          super_update b (repeat X01 (num_outputs self))
                                       Ys Yvars cm) self).
  { rewrite update_unfold, H1, H2, H3. reflexivity. }
  assert (Hc : cross_validate super_cross_validate Xs Ys Yvars X_test self
               = super (fun b =>
                          super_cross_validate b
                            (repeat X01 (num_outputs self))
                            Ys Yvars X_test01) self).
  { rewrite cross_validate_unfold, H1, H2, H4, H3, H5. reflexivity. }
  split; [exact Hu|]. split; [exact Hc|]. split.
  - intros s0 Xs_fit Ys_fit Yvars_fit ssd mn cm_fit os Hpre Hos Hs.
    assert (Hn : num_outputs self = length Xs_fit).
    { rewrite Hs, steps_keep_num_outputs by exact Hos.
      apply fit_num_outputs. exact Hpre. }
    rewrite <- Hn. split; assumption.
  - intros Kwargs super_init pinverse A0 initial_X_d bounds_d0 kwargs os
           Hos Hs.
    assert (Hn : num_outputs self = 0%nat).
    { rewrite Hs, steps_keep_num_outputs by exact Hos. reflexivity. }
    rewrite Hu, Hc, Hn. split; reflexivity.
Qed.

End Operations.

(** The second of three later calls is a [gen] that returns. *)
Lemma store_append_only_witness :
  exists new,
    X_d (snd (run Scenario.super_fit Scenario.super_predict
                  Scenario.super_gen Scenario.super_best_point
                  Scenario.super_cross_validate Scenario.super_update
                  (OpGen 1 [(-1, 1)] [1] None None None None None)
                  Scenario.model))
    = X_d Scenario.model ++ new /\
    X_d_gen (snd (run Scenario.super_fit Scenario.super_predict
                      Scenario.super_gen Scenario.super_best_point
                      Scenario.super_cross_validate Scenario.super_update
                      (OpGen 1 [(-1, 1)] [1] None None None None None)
                      Scenario.model))
    = X_d_gen Scenario.model ++ new.
Proof.
  refine (proj1 (store_append_only
                   Scenario.super_fit Scenario.super_predict
                   Scenario.super_gen Scenario.super_best_point
                   Scenario.super_cross_validate Scenario.super_update
                   Scenario.model
                   (OpGen 1 [(-1, 1)] [1] None None None None None)
                   _ _)).
  - reflexivity.
  - intros b n bs w oc mgo X w' g c b' H.
    unfold Scenario.super_gen in H. injection H as <- _ _ _ _.
    reflexivity.
Defined.

(** A model fitted on two outcomes, then updated and cross-validated with
    a single design matrix: the superclass still receives two copies. *)
Lemma update_cross_validate_replicate_witness :
  let fitted :=
    snd (fit Scenario.super_fit [Scenario.X_seen; Scenario.X_seen]
             [Scenario.Y_seen; Scenario.Y_seen]
             [Scenario.Y_seen; Scenario.Y_seen]
             Scenario.digest ["m1"; "m2"]%string None Scenario.model) in
  let X01 := mkTensor 1 [[1 # 2]; [3 # 4]] in
  update Scenario.super_update [Scenario.X_seen] [Scenario.Y_seen]
         [Scenario.Y_seen] None fitted
  = super (fun b => Scenario.super_update b [X01; X01] [Scenario.Y_seen]
                                          [Scenario.Y_seen] None) fitted /\
  cross_validate Scenario.super_cross_validate [Scenario.X_seen]
                 [Scenario.Y_seen] [Scenario.Y_seen]
                 (mkTensor 3 [[1 # 2; 0; 0]]) fitted
  = super (fun b =>
             Scenario.super_cross_validate b [X01; X01] [Scenario.Y_seen]
               [Scenario.Y_seen] (mkTensor 1 [[3 # 4]])) fitted.
Proof.
  intros fitted X01.
  pose proof (update_cross_validate_replicate
                Scenario.super_fit Scenario.super_predict
                Scenario.super_gen Scenario.super_best_point
                Scenario.super_cross_validate Scenario.super_update
                fitted [Scenario.X_seen] [Scenario.Y_seen] [Scenario.Y_seen]
                None (mkTensor 3 [[1 # 2; 0; 0]])
                Scenario.X_seen (mkTensor 1 [[0]; [1 # 2]]) X01
                (mkTensor 1 [[1 # 2]]) (mkTensor 1 [[3 # 4]])
                eq_refl eq_refl eq_refl eq_refl eq_refl) as H.
  exact (conj (proj1 H) (proj1 (proj2 H))).
Defined.

(** ** [project_up] on a matrix is [project_up] on each row *)

Lemma nth_nil_Q (i : nat) : nth i (@nil Q) 0 = 0.
Proof. destruct i; reflexivity. Qed.

Lemma map_nth_seq {T U} (g : T -> U) (d : T) (l : list T) :
  map (fun j => g (nth j l d)) (seq 0 (length l)) = map g l.
Proof.
  induction l as [|a l IH]; simpl; [reflexivity|].
  f_equal. rewrite <- seq_shift, map_map. exact IH.
Qed.

Lemma nth_map_in_range {T U} (g : T -> U) (d : T) (d' : U) (l : list T)
      (j : nat) :
  (j < length l)%nat -> nth j (map g l) d' = g (nth j l d).
Proof.
  intros H. rewrite (nth_indep _ d' (g d)) by (rewrite length_map; exact H).
  apply map_nth.
Qed.

Lemma col_t (X : Tensor) (j : nat) :
  wf_tensor X -> (j < shape0 X)%nat -> col j (t X) = nth j (rows X) [].
Proof.
  intros Hwf Hj. unfold col, t. simpl. rewrite map_map.
  assert (Hlen : length (nth j (rows X) []) = shape1 X).
  { unfold wf_tensor in Hwf. rewrite Forall_forall in Hwf.
    apply Hwf. apply nth_In. exact Hj. }
  rewrite <- Hlen.
  transitivity (map (fun x : Q => x) (nth j (rows X) [])); [|apply map_id].
  rewrite <- (map_nth_seq (fun x : Q => x) 0 (nth j (rows X) [])).
  apply map_ext. intros i.
  rewrite <- (nth_nil_Q i) at 1.
  apply (map_nth (fun r => nth i r 0)).
Qed.

Section Rowwise.

Context {Base : Type}.
Variable self : REMBO Base.

Lemma project_up_rows (X : Tensor) :
  wf_tensor X ->
  shape1 X = shape1 (A self) ->
  project_up self X
  = Ok (mkTensor (shape0 (A self))
          (map (fun x => clamp_vec (-1) 1
                           (map (fun a => dot a x) (rows (A self))))
               (rows X))).
Proof.
  intros Hwf Hc. unfold project_up, matmul.
  rewrite shape0_t, Hc, Nat.eqb_refl. simpl.
  unfold clamp, t at 1. simpl. unfold shape0 at 1. simpl.
  rewrite length_map. f_equal. f_equal.
  rewrite !map_map.
  rewrite <- (map_nth_seq
                (fun x => clamp_vec (-1) 1
                            (map (fun a => dot a x) (rows (A self))))
                [] (rows X)).
  apply map_ext_in. intros j Hj. apply in_seq in Hj. f_equal.
  unfold col. simpl. rewrite map_map.
  apply map_ext. intros a.
  unfold shape0 in *.
  rewrite (nth_map_in_range _ 0%nat) by (rewrite length_seq; lia).
  rewrite seq_nth by lia. simpl.
  change (map (fun r : list Q => nth j r 0)
            (map (fun j1 : nat => col j1 X) (seq 0 (shape1 X))))
    with (col j (t X)).
  rewrite col_t by (try exact Hwf; unfold shape0; lia).
  reflexivity.
Qed.

Lemma project_up_vec_value (x : vec) :
  length x = shape1 (A self) ->
  project_up_vec self x
  = Ok (clamp_vec (-1) 1 (map (fun a => dot a x) (rows (A self)))).
Proof.
  intros H. unfold project_up_vec, matvec.
  rewrite H, Nat.eqb_refl. reflexivity.
Qed.


End Rowwise.

(** ** Correspondence lookup of the store's own projections *)

Section Correspondence.

Context {Base : Type}.
Variable self : REMBO Base.

Lemma project_up_vec_lengths (z x : vec) :
  project_up_vec self z = Ok x ->
  length z = shape1 (A self) /\ length x = shape0 (A self).
Proof.
  unfold project_up_vec, matvec.
  destruct (Nat.eqb_spec (shape1 (A self)) (length z)) as [E|E]; simpl.
  - intros H. injection H as <-. unfold clamp_vec, shape0.
    rewrite !length_map. split; [symmetry; exact E | reflexivity].
  - discriminate.
Qed.

Lemma getitem_middle {T} (pre : list T) (z : T) (post : list T) :
  getitem (pre ++ z :: post) (length pre) = Ok z.
Proof.
  unfold getitem. rewrite nth_error_app2 by apply Nat.le_refl.
  rewrite Nat.sub_diag. reflexivity.
Qed.





End Correspondence.



(** ** The end-to-end scenario *)

Example scenario_project_up :
  project_up Scenario.model (mkTensor 1 [[1 # 2]])
  = Ok (mkTensor 3 [[1 # 2; 0 # 2; 0 # 2]]).
Proof. reflexivity. Qed.

Example scenario_fit :
  let r := fit Scenario.super_fit [Scenario.X_seen] [Scenario.Y_seen]
               [Scenario.Y_seen] Scenario.digest ["m"]%string None
               Scenario.model in
  fst r = Ok tt /\ num_outputs (snd r) = 1%nat.
Proof. split; reflexivity. Qed.

Example scenario_gen :
  let r := gen Scenario.super_gen 1 [(-1, 1)] [1] None None None None None
               Scenario.model in
  length (X_d (snd r)) = S (length (X_d Scenario.model)) /\
  exists x1 x2 x3 w,
    fst r = Ok (mkTensor 3 [[x1; x2; x3]], w, [], None) /\
    in_unit_box x1 /\ x2 == 0 /\ x3 == 0.
Proof.
  split; [reflexivity|].
  exists (2 # 4), (0 # 4), (0 # 4), [1].
  split; [reflexivity|].
  split; [split; discriminate|]. split; reflexivity.
Qed.

(** * Further properties of the code *)

(** ** [list.remove] on the unmatched indices *)

Lemma list_remove_In (x y : nat) (l : list nat) :
  In y (list_remove x l) -> In y l.
Proof.
  induction l as [|a l IH]; simpl; [tauto|].
  destruct (x =? a)%nat; simpl; tauto.
Qed.

Lemma list_remove_NoDup (x : nat) (l : list nat) :
  NoDup l -> NoDup (list_remove x l) /\ ~ In x (list_remove x l).
Proof.
  induction 1 as [|a l Ha Hl IH]; simpl.
  - split; [constructor | tauto].
  - destruct (Nat.eqb_spec x a) as [->|Hxa].
    + split; assumption.
    + destruct IH as [IH1 IH2]. split.
      * constructor; [|exact IH1].
        intros H. apply Ha. exact (list_remove_In x a l H).
      * simpl. intros [H|H]; [congruence | contradiction].
Qed.




(** ** What a successful lookup guarantees *)

Section LookupSound.

Context {Base : Type}.
Variable self : REMBO Base.

Lemma getitem_Ok {T} (l : list T) (i : nat) (v : T) :
  getitem l i = Ok v <-> nth_error l i = Some v.
Proof.
  unfold getitem. destruct (nth_error l i); split; congruence.
Qed.

Lemma find_match_Some (x : vec) (l : list nat) (i : nat) :
  find_match self x l = Ok (Some i) -> In i l /\ matched self x i.
Proof.
  induction l as [|j l IH]; simpl; [discriminate|].
  destruct (getitem (X_d self) j) as [z|e] eqn:Ez; simpl; [|discriminate].
  destruct (project_up_vec self z) as [up|e] eqn:Eu; simpl; [|discriminate].
  destruct (allclose_vec x up) as [[|]|e] eqn:Ec; simpl; try discriminate.
  - intros H. injection H as <-. split; [left; reflexivity|].
    exists z, up. apply getitem_Ok in Ez. auto.
  - intros H. destruct (IH H) as [H1 H2]. split; [right|]; assumption.
Qed.

Lemma project_down_loop_sound (xs : list vec) :
  forall (acc : list vec) (unmatched : list nat) (out : list vec),
    NoDup unmatched ->
    project_down_loop self xs acc unmatched = Ok out ->
    exists idxs picked,
      out = acc ++ picked /\
      NoDup idxs /\
      incl idxs unmatched /\
      Forall2 (fun i z => nth_error (X_d self) i = Some z) idxs picked /\
      Forall2 (matched self) xs idxs.
Proof.
  induction xs as [|x xs IH]; intros acc unmatched out Hnd; simpl.
  - intros H. injection H as <-. exists [], [].
    rewrite app_nil_r. repeat split; try constructor.
    intros i Hi. destruct Hi.
  - destruct (find_match self x unmatched) as [[i|]|e] eqn:Ef; simpl;
      try discriminate.
    destruct (find_match_Some x unmatched i Ef) as [Hin Hm].
    destruct (getitem (X_d self) i) as [z|e] eqn:Ez; simpl; [|discriminate].
    intros H.
    destruct (list_remove_NoDup i unmatched Hnd) as [Hnd' Hni].
    destruct (IH _ _ _ Hnd' H) as [idxs [picked [Ho [Hn [Hi [Hp Hx]]]]]].
    exists (i :: idxs), (z :: picked).
    split; [rewrite Ho, <- app_assoc; reflexivity|].
    split; [constructor; [intros Hc; apply Hni, Hi, Hc | exact Hn]|].
    split.
    { intros j [<-|Hj]; [exact Hin|].
      exact (list_remove_In i j unmatched (Hi j Hj)). }
    split; constructor; try assumption.
    apply getitem_Ok. exact Ez.
Qed.

Lemma stack_Ok_rows (l : list vec) (Z : Tensor) :
  stack l = Ok Z -> rows Z = l /\ l <> [].
Proof.
  unfold stack. destruct l as [|v l]; [discriminate|].
  destruct (forallb _ _); [|discriminate].
  intros H. injection H as <-. split; [reflexivity | discriminate].
Qed.

Lemma NoDup_below_length (idxs : list nat) (n : nat) :
  NoDup idxs -> incl idxs (seq 0 n) -> (length idxs <= n)%nat.
Proof.
  intros Hnd Hin.
  pose proof (NoDup_incl_length Hnd Hin) as H.
  rewrite length_seq in H. exact H.
Qed.

End LookupSound.

(** X1 - Soundness of the correspondence lookup.  Whenever [project_down]
    returns, its result has one row per batch row and at least one row,
    and there is a list of pairwise distinct store indices, one per batch
    row, such that result row [k] is the store entry at index [k] of that
    list and the entry's [project_up] image is [torch.allclose] to batch
    row [k]: no store entry answers two rows of one call. *)
Theorem project_down_one_to_one {Base : Type} (self : REMBO Base)
        (X_D Z : Tensor) :
  project_down self X_D = Ok Z ->
  exists idxs,
    NoDup idxs /\
    Forall (fun i => (i < length (X_d self))%nat) idxs /\
    Forall2 (fun i z => nth_error (X_d self) i = Some z) idxs (rows Z) /\
    Forall2 (matched self) (rows X_D) idxs /\
    shape0 Z = shape0 X_D /\
    (1 <= shape0 Z)%nat.
Proof.
  unfold project_down.
  destruct (project_down_loop self (rows X_D) [] (seq 0 (length (X_d self))))
    as [out|e] eqn:El; simpl; [|discriminate].
  intros Hs. destruct (stack_Ok_rows out Z Hs) as [Hr Hne].
  destruct (project_down_loop_sound self _ _ _ _ (seq_NoDup _ _) El)
    as [idxs [picked [Ho [Hn [Hi [Hp Hx]]]]]].
  simpl in Ho. subst out picked.
  exists idxs. split; [exact Hn|]. split.
  { apply Forall_forall. intros i Hin. apply Hi, in_seq in Hin. lia. }
  split; [exact Hp|]. split; [exact Hx|].
  unfold shape0.
  pose proof (Forall2_length Hp) as L1.
  pose proof (Forall2_length Hx) as L2.
  split; [congruence|].
  destruct (rows Z); [contradiction | simpl; lia].
Qed.

(** Both rows of the scenario's design matrix resolve. *)
Lemma project_down_one_to_one_witness :
  let Z := mkTensor 1 [[0]; [1 # 2]] in
  exists idxs,
    NoDup idxs /\
    Forall (fun i => (i < length (X_d Scenario.model))%nat) idxs /\
    Forall2 (fun i z => nth_error (X_d Scenario.model) i = Some z) idxs
            (rows Z) /\
    Forall2 (matched Scenario.model) (rows Scenario.X_seen) idxs /\
    shape0 Z = shape0 Scenario.X_seen /\
    (1 <= shape0 Z)%nat.
Proof.
  intros Z.
  apply (project_down_one_to_one Scenario.model Scenario.X_seen
           (mkTensor 1 [[0]; [1 # 2]])).
  reflexivity.
Defined.

(** X2 - A batch with more rows than the store has entries is never
    resolved: [project_down] raises. *)
Theorem project_down_needs_enough_points {Base : Type} (self : REMBO Base)
        (X_D : Tensor) :
  (length (X_d self) < shape0 X_D)%nat ->
  exists e, project_down self X_D = Raise e.
Proof.
  intros Hlt. unfold project_down.
  destruct (project_down_loop self (rows X_D) [] (seq 0 (length (X_d self))))
    as [out|e] eqn:El; simpl; [|exists e; reflexivity].
  exfalso.
  destruct (project_down_loop_sound self _ _ _ _ (seq_NoDup _ _) El)
    as [idxs [picked [_ [Hn [Hi [_ Hx]]]]]].
  pose proof (NoDup_below_length idxs _ Hn Hi) as Hle.
  rewrite <- (Forall2_length Hx) in Hle. unfold shape0 in Hlt. lia.
Qed.

(** The same point three times against a store of two. *)
Lemma project_down_needs_enough_points_witness :
  exists e,
    project_down Scenario.model
                 (mkTensor 3 [[0; 0; 0]; [0; 0; 0]; [0; 0; 0]])
    = Raise e.
Proof.
  apply (project_down_needs_enough_points Scenario.model
           (mkTensor 3 [[0; 0; 0]; [0; 0; 0]; [0; 0; 0]])).
  vm_compute. lia.
Defined.

(** ** More on the bounds transforms *)

Lemma affine_row_length (f : bound -> Q -> Q) (bs : list bound) :
  forall r : vec, length (affine_row f bs r) = length r.
Proof.
  induction bs as [|b bs IH]; intros [|x r]; simpl; try reflexivity.
  rewrite IH. reflexivity.
Qed.

Lemma affine_row_skipn (f : bound -> Q -> Q) (bs : list bound) :
  forall r : vec,
    skipn (length bs) (affine_row f bs r) = skipn (length bs) r.
Proof.
  induction bs as [|b bs IH]; intros [|x r]; simpl; try reflexivity.
  apply IH.
Qed.

(** X3 - When [to_01] and [from_01] fail.  A tensor with fewer columns
    than [bounds_d] has entries makes both raise [IndexError], also when
    it has no rows.  Otherwise both return a tensor of the same shape,
    row by row of the same length, in which every column beyond the last
    bound is copied unchanged. *)
Theorem bounds_transforms_shape {Base : Type} (self : REMBO Base)
        (X : Tensor) :
  ((shape1 X < length (bounds_d self))%nat ->
   to_01 self X = Raise IndexError /\ from_01 self X = Raise IndexError) /\
  ((length (bounds_d self) <= shape1 X)%nat ->
   exists Y Y',
     to_01 self X = Ok Y /\ from_01 self X = Ok Y' /\
     shape1 Y = shape1 X /\ shape1 Y' = shape1 X /\
     Forall2 (fun r y =>
                length y = length r /\
                skipn (length (bounds_d self)) y
                = skipn (length (bounds_d self)) r) (rows X) (rows Y) /\
     Forall2 (fun r y =>
                length y = length r /\
                skipn (length (bounds_d self)) y
                = skipn (length (bounds_d self)) r) (rows X) (rows Y')).
Proof.
  split.
  - intros H. split; [apply to_01_short | apply from_01_short]; exact H.
  - intros H. eexists. eexists.
    split; [apply to_01_rows; exact H|].
    split; [apply from_01_rows; exact H|].
    split; [reflexivity|]. split; [reflexivity|]. simpl.
    split; induction (rows X) as [|r rs IH]; simpl; constructor;
      try exact IH;
      (split; [apply affine_row_length | apply affine_row_skipn]).
Qed.

(** One bound, a tensor of no columns and a tensor of two. *)
Lemma bounds_transforms_shape_witness :
  (to_01 Scenario.model (mkTensor 0 [[]; []]) = Raise IndexError /\
   from_01 Scenario.model (mkTensor 0 [[]; []]) = Raise IndexError) /\
  (exists Y Y',
      to_01 Scenario.model (mkTensor 2 [[0; 7]]) = Ok Y /\
      from_01 Scenario.model (mkTensor 2 [[0; 7]]) = Ok Y' /\
      shape1 Y = 2%nat /\ shape1 Y' = 2%nat /\
      Forall2 (fun r y => length y = length r /\ skipn 1 y = skipn 1 r)
              [[0; 7]] (rows Y) /\
      Forall2 (fun r y => length y = length r /\ skipn 1 y = skipn 1 r)
              [[0; 7]] (rows Y')).
Proof.
  split.
  - apply (bounds_transforms_shape Scenario.model (mkTensor 0 [[]; []])).
    vm_compute. lia.
  - apply (bounds_transforms_shape Scenario.model (mkTensor 2 [[0; 7]])).
    vm_compute. lia.
Defined.

(** ** When the lookup is defined, and what it finds *)

Section LookupDefined.

Context {Base : Type}.
Variable self : REMBO Base.

(** Every stored point has as many entries as [A] has columns. *)
Hypothesis store_ok :
  Forall (fun z => length z = shape1 (A self)) (X_d self).

Lemma stored_point (i : nat) :
  (i < length (X_d self))%nat ->
  exists z, nth_error (X_d self) i = Some z /\ length z = shape1 (A self).
Proof.
  intros Hi. destruct (nth_error (X_d self) i) as [z|] eqn:E.
  - exists z. split; [reflexivity|].
    rewrite Forall_forall in store_ok. apply store_ok.
    exact (nth_error_In _ _ E).
  - apply nth_error_None in E. lia.
Qed.

Lemma allclose_vec_same_length (a b : vec) :
  length a = length b ->
  allclose_vec a b = Ok (all2 isclose a b).
Proof.
  intros H. unfold allclose_vec. rewrite H, broadcast_dim_same.
  rewrite (expand_same 0 a) by exact H.
  rewrite (expand_same 0 b) by reflexivity. reflexivity.
Qed.

Lemma compare_defined (x : vec) (i : nat) :
  length x = shape0 (A self) ->
  (i < length (X_d self))%nat ->
  exists z up c,
    getitem (X_d self) i = Ok z /\
    project_up_vec self z = Ok up /\
    allclose_vec x up = Ok c.
Proof.
  intros Hx Hi. destruct (stored_point i Hi) as [z [Hz Hlen]].
  exists z. eexists. eexists.
  split; [apply getitem_Ok; exact Hz|].
  split; [apply project_up_vec_value; exact Hlen|].
  apply allclose_vec_same_length.
  unfold clamp_vec. rewrite !length_map. exact Hx.
Qed.

Lemma find_match_defined (x : vec) (l : list nat) :
  length x = shape0 (A self) ->
  Forall (fun i => (i < length (X_d self))%nat) l ->
  exists r, find_match self x l = Ok r.
Proof.
  intros Hx. induction 1 as [|i l Hi _ IH]; simpl.
  - eexists. reflexivity.
  - destruct (compare_defined x i Hx Hi) as [z [up [c [E1 [E2 E3]]]]].
    rewrite E1. simpl. rewrite E2. simpl. rewrite E3. simpl.
    destruct c; [eexists; reflexivity | exact IH].
Qed.


Lemma list_remove_below (i : nat) (l : list nat) (n : nat) :
  Forall (fun j => (j < n)%nat) l ->
  Forall (fun j => (j < n)%nat) (list_remove i l).
Proof.
  intros H. apply Forall_forall. intros j Hj.
  rewrite Forall_forall in H. apply H.
  exact (list_remove_In i j l Hj).
Qed.

(** A row that no stored point answers stops the loop with the
    correspondence error, wherever it stands in the batch. *)
Lemma project_down_loop_unresolved (x : vec) :
  (forall z up,
      In z (X_d self) -> project_up_vec self z = Ok up ->
      allclose_vec x up = Ok false) ->
  forall (xs acc : list vec) (unmatched : list nat),
    Forall (fun r => length r = shape0 (A self)) xs ->
    Forall (fun i => (i < length (X_d self))%nat) unmatched ->
    In x xs ->
    project_down_loop self xs acc unmatched = Raise unresolved.
Proof.
  intros Hfar. induction xs as [|x' xs IH]; intros acc unmatched Hxs Hun Hin.
  - destruct Hin.
  - inversion Hxs as [|? ? Hx' Hxs']; subst. simpl.
    destruct (find_match_defined x' unmatched Hx' Hun) as [[i|] Ef];
      rewrite Ef; simpl; [|reflexivity].
    destruct (find_match_Some self x' unmatched i Ef) as [Hi Hm].
    destruct Hin as [->|Hin].
    + exfalso. destruct Hm as [z [up [Hz [Hup Hc]]]].
      rewrite (Hfar z up (nth_error_In _ _ Hz) Hup) in Hc. discriminate.
    + destruct Hm as [z [up [Hz _]]].
      apply getitem_Ok in Hz. rewrite Hz. simpl.
      apply IH; [exact Hxs' | apply list_remove_below; exact Hun | exact Hin].
Qed.

End LookupDefined.

(** X7 - Correspondence failure.  On a store of points of the right
    length and a batch of rows of length D, if some row of the batch is
    not within tolerance of the projection of any stored point,
    [project_down] raises [ValueError("Failed to project X down.")],
    whatever the other rows are. *)
Theorem project_down_unresolved {Base : Type} (self : REMBO Base)
        (X_D : Tensor) (x : vec) :
  Forall (fun z => length z = shape1 (A self)) (X_d self) ->
  Forall (fun r => length r = shape0 (A self)) (rows X_D) ->
  In x (rows X_D) ->
  (forall z up,
      In z (X_d self) -> project_up_vec self z = Ok up ->
      allclose_vec x up = Ok false) ->
  project_down self X_D = Raise (ValueError "Failed to project X down.").
Proof.
  intros Hstore Hrows Hin Hfar. unfold project_down.
  rewrite (project_down_loop_unresolved self Hstore x Hfar).
  - reflexivity.
  - exact Hrows.
  - apply Forall_forall. intros i Hi. apply in_seq in Hi. lia.
  - exact Hin.
Qed.

(** The second row is the projection of no stored point. *)
Lemma project_down_unresolved_witness :
  project_down Scenario.model (mkTensor 3 [[0; 0; 0]; [1 # 4; 0; 0]])
  = Raise (ValueError "Failed to project X down.").
Proof.
  apply (project_down_unresolved Scenario.model
           (mkTensor 3 [[0; 0; 0]; [1 # 4; 0; 0]]) [1 # 4; 0; 0]).
  - repeat constructor.
  - repeat constructor.
  - right. left. reflexivity.
  - intros z up [<-|[<-|[]]] H; injection H as <-; reflexivity.
Defined.

(** ** Shuffled batches over a store with separated projections *)


Lemma nth_error_nth_default {T} (l : list T) (i : nat) (d : T) :
  (i < length l)%nat -> nth_error l i = Some (nth i l d).
Proof.
  revert i. induction l as [|a l IH]; intros [|i] H; simpl in *;
    try lia; [reflexivity | apply IH; lia].
Qed.

Section Shuffled.

Context {Base : Type}.
Variable self : REMBO Base.
Variable ups : list vec.

(** [ups] holds the projections of the stored points, in store order, and
    the projections of two different entries are never within
    tolerance. *)
Hypothesis ups_ok :
  Forall2 (fun z u => project_up_vec self z = Ok u) (X_d self) ups.
Hypothesis separated :
  forall i j a b,
    i <> j -> nth_error ups i = Some a -> nth_error ups j = Some b ->
    allclose_vec a b = Ok false.



End Shuffled.



(** ** Looking up the most recently stored points *)

Section Recent.

Context {Base : Type}.
Variable self : REMBO Base.
Hypothesis store_ok :
  Forall (fun z => length z = shape1 (A self)) (X_d self).



End Recent.



(** ** What [gen] hands back *)

Lemma project_up_Ok_shape {Base : Type} (self : REMBO Base) (X Z : Tensor) :
  project_up self X = Ok Z ->
  shape1 X = shape1 (A self) /\
  shape0 Z = shape0 X /\
  shape1 Z = shape0 (A self).
Proof.
  intros H.
  destruct (Nat.eq_dec (shape1 X) (shape1 (A self))) as [E|E].
  - destruct (project_up_value self X E) as [Z0 [_ [Hc [Hr Hup]]]].
    rewrite Hup in H. injection H as <-.
    split; [exact E|]. split; [|exact Hr].
    unfold shape0. simpl. rewrite !length_map, length_seq. exact Hc.
  - rewrite project_up_shape_error in H by exact E. discriminate.
Qed.

Section GenOutput.

Context {Any Base : Type}.
Variable super_gen :
  Base -> Z -> list bound -> vec -> option (Tensor * Tensor) ->
  option (list (string * Any)) ->
  sresult (Tensor * vec * list (string * Any)
           * option (list (option (list (string * Any))))) * Base.
Variables (n : Z) (bounds0 : list bound) (w : vec)
          (oc lc : option (Tensor * Tensor))
          (ff : option (list (nat * Q))) (po : option (list Tensor))
          (mgo : option (list (string * Any))).
Variable self : REMBO Base.

(** A returning [gen], opened up. *)
Lemma gen_Ok_inv X_D w' g c self' :
  gen super_gen n bounds0 w oc lc ff po mgo self
  = (Ok (X_D, w', g, c), self') ->
  exists b' Xopt,
    project_up self Xopt = Ok X_D /\
    self' = after_gen self b' Xopt.
Proof.
  intros H.
  destruct (gen_preconditions bounds0 lc ff po) eqn:Hpre.
  2:{ rewrite gen_rejected in H by exact Hpre. discriminate. }
  rewrite gen_accepted in H by exact Hpre.
  destruct (super_gen (base self) n (unit_bounds self) w oc mgo)
    as [[[[[Xopt_01 w0] gm] cmm]|msg] b']; [|discriminate].
  destruct (from_01 self Xopt_01) as [Xopt|e]; [|discriminate].
  destruct (project_up self Xopt) as [up|e] eqn:Eu; [|discriminate].
  injection H as <- _ _ _ <-. exists b', Xopt. split; [exact Eu | reflexivity].
Qed.

End GenOutput.

(** X10 - What [gen] returns.  When [gen] returns, the tensor it hands
    back has D columns and one row for each point it appended to the
    store, and the store and the generated log have both grown by exactly
    that many points. *)
Theorem gen_returns_one_row_per_point {Any Base : Type}
        (super_gen :
           Base -> Z -> list bound -> vec -> option (Tensor * Tensor) ->
           option (list (string * Any)) ->
           sresult (Tensor * vec * list (string * Any)
                    * option (list (option (list (string * Any))))) * Base)
        (n : Z) (bounds0 : list bound) (w : vec)
        (oc lc : option (Tensor * Tensor))
        (ff : option (list (nat * Q))) (po : option (list Tensor))
        (mgo : option (list (string * Any)))
        (self self' : REMBO Base) (X_D : Tensor) (w' : vec)
        (g : list (string * Any))
        (c : option (list (option (list (string * Any))))) :
  gen super_gen n bounds0 w oc lc ff po mgo self
  = (Ok (X_D, w', g, c), self') ->
  shape1 X_D = shape0 (A self) /\
  length (X_d self') = (length (X_d self) + shape0 X_D)%nat /\
  length (X_d_gen self') = (length (X_d_gen self) + shape0 X_D)%nat.
Proof.
  intros H.
  destruct (gen_Ok_inv super_gen n bounds0 w oc lc ff po mgo self
              X_D w' g c self' H) as [b' [Xopt [Hup ->]]].
  destruct (project_up_Ok_shape self Xopt X_D Hup) as [_ [Hr Hc]].
  split; [exact Hc|].
  unfold after_gen. simpl. rewrite !length_app, Hr. unfold shape0.
  split; reflexivity.
Qed.

(** The scenario's [gen]: one row, one new point. *)
Lemma gen_returns_one_row_per_point_witness :
  let X_D := mkTensor 3 [[2 # 4; 0 # 4; 0 # 4]] in
  let self' := snd (gen Scenario.super_gen 1 [(-1, 1)] [1] None None None
                        None None Scenario.model) in
  shape1 X_D = shape0 (A Scenario.model) /\
  length (X_d self') = (length (X_d Scenario.model) + shape0 X_D)%nat /\
  length (X_d_gen self')
  = (length (X_d_gen Scenario.model) + shape0 X_D)%nat.
Proof.
  intros X_D self'.
  apply (gen_returns_one_row_per_point Scenario.super_gen 1 [(-1, 1)] [1]
           None None None None None Scenario.model self' X_D [1] [] None).
  reflexivity.
Defined.



(** ** Rejected calls *)

Lemma bound_eqb_symmetric_unit (b : bound) :
  bound_eqb b (-1, 1) = true <-> symmetric_unit b.
Proof.
  unfold bound_eqb, symmetric_unit. simpl.
  rewrite andb_true_iff, !Qeq_bool_iff. reflexivity.
Qed.

Lemma assert_bounds_Ok (bs : list bound) :
  is_Ok (assert_bounds bs) = true <-> Forall symmetric_unit bs.
Proof.
  unfold assert_bounds. induction bs as [|b bs IH]; simpl.
  - split; [constructor | reflexivity].
  - destruct (bound_eqb b (-1, 1)) eqn:E; simpl.
    + rewrite IH. split.
      * intros H. constructor; [apply bound_eqb_symmetric_unit, E | exact H].
      * intros H. inversion H; assumption.
    + split; [discriminate|].
      intros H. inversion H as [|? ? Hb _]; subst.
      apply bound_eqb_symmetric_unit in Hb. congruence.
Qed.

Lemma is_None_false {T} (o : option T) : o <> None -> is_None o = false.
Proof. destruct o; [reflexivity | congruence]. Qed.

Lemma length_eqb_0_false {T} (l : list T) :
  l <> [] -> (length l =? 0)%nat = false.
Proof. destruct l; [congruence | reflexivity]. Qed.

Section BestPoint.

Context {Any Base : Type}.
Variable super_best_point :
  Base -> list bound -> vec -> option (Tensor * Tensor) ->
  option (list (string * Any)) -> sresult (option vec) * Base.
Variables (bounds0 : list bound) (w : vec)
          (oc lc : option (Tensor * Tensor))
          (ff : option (list (nat * Q)))
          (mgo : option (list (string * Any))).
Variable self : REMBO Base.

Lemma best_point_rejected :
  best_point_preconditions bounds0 lc ff = false ->
  best_point super_best_point bounds0 w oc lc ff mgo self
  = (Raise AssertionError, self).
Proof.
  unfold best_point_preconditions, best_point, bind, lift, assert_.
  destruct (assert_bounds bounds0) as [[]|e] eqn:E; simpl.
  - destruct (is_None lc); [|reflexivity].
    destruct (is_None ff); [discriminate | reflexivity].
  - apply assert_bounds_raises in E. subst e. reflexivity.
Qed.

Lemma best_point_accepted :
  best_point_preconditions bounds0 lc ff = true ->
  best_point super_best_point bounds0 w oc lc ff mgo self
  = match super_best_point (base self) (bounds_d self) w oc mgo with
    | (SRaise msg, b') => (Raise (SuperError msg), set_base b' self)
    | (SOk None, b') => (Ok None, set_base b' self)
    | (SOk (Some x), b') =>
        match from_01 self (unsqueeze0 x) with
        | Raise e => (Raise e, set_base b' self)
        | Ok X =>
            match project_up self X with
            | Raise e => (Raise e, set_base b' self)
            | Ok up => (Ok (Some (squeeze0 up)), set_base b' self)
            end
        end
    end.
Proof.
  unfold best_point_preconditions, best_point, bind, lift, assert_,
    get_self, super, ret.
  destruct (assert_bounds bounds0) as [[]|e]; simpl; [|discriminate].
  destruct (is_None lc); [|discriminate].
  destruct (is_None ff); [|discriminate].
  intros _. simpl.
  destruct (super_best_point (base self) (bounds_d self) w oc mgo)
    as [[[x|]|msg] b']; reflexivity.
Qed.

End BestPoint.

(** X12 - Unsupported inputs are rejected before anything happens.
    [fit] with task features, fidelity features or a declared bound other
    than [(-1, 1)]; [gen] with such a bound, linear constraints, fixed
    features or pending observations; [best_point] with such a bound,
    linear constraints or fixed features: each raises [AssertionError]
    and leaves the whole object, [num_outputs] and the superclass state
    included, exactly as it was. *)
Theorem unsupported_inputs_rejected {Any Base : Type}
        (super_fit :
           Base -> list Tensor -> list Tensor -> list Tensor ->
           SearchSpaceDigest -> list string ->
           option (list (list (option (list (string * Any))))) ->
           sresult unit * Base)
        (super_gen :
           Base -> Z -> list bound -> vec -> option (Tensor * Tensor) ->
           option (list (string * Any)) ->
           sresult (Tensor * vec * list (string * Any)
                    * option (list (option (list (string * Any))))) * Base)
        (super_best_point :
           Base -> list bound -> vec -> option (Tensor * Tensor) ->
           option (list (string * Any)) -> sresult (option vec) * Base)
        (self : REMBO Base) :
  (forall Xs Ys Yvars ssd mn cm,
      task_features ssd <> [] \/ fidelity_features ssd <> [] \/
      ~ Forall symmetric_unit (bounds ssd) ->
      fit super_fit Xs Ys Yvars ssd mn cm self
      = (Raise AssertionError, self)) /\
  (forall n bounds0 w oc lc ff po mgo,
      ~ Forall symmetric_unit bounds0 \/ lc <> None \/ ff <> None \/
      po <> None ->
      gen super_gen n bounds0 w oc lc ff po mgo self
      = (Raise AssertionError, self)) /\
  (forall bounds0 w oc lc ff mgo,
      ~ Forall symmetric_unit bounds0 \/ lc <> None \/ ff <> None ->
      best_point super_best_point bounds0 w oc lc ff mgo self
      = (Raise AssertionError, self)).
Proof.
  assert (Hb : forall bs, ~ Forall symmetric_unit bs ->
                          is_Ok (assert_bounds bs) = false).
  { intros bs H. destruct (is_Ok (assert_bounds bs)) eqn:E; [|reflexivity].
    exfalso. apply H, assert_bounds_Ok, E. }
  split; [|split].
  - intros Xs Ys Yvars ssd mn cm H. apply fit_rejected.
    unfold fit_preconditions.
    destruct H as [H|[H|H]].
    + rewrite (length_eqb_0_false _ H). reflexivity.
    + rewrite (length_eqb_0_false _ H), andb_false_r. reflexivity.
    + rewrite (Hb _ H), andb_false_r. reflexivity.
  - intros n bounds0 w oc lc ff po mgo H. apply gen_rejected.
    unfold gen_preconditions.
    destruct H as [H|[H|[H|H]]].
    + rewrite (Hb _ H). reflexivity.
    + rewrite (is_None_false _ H), andb_false_r. reflexivity.
    + rewrite (is_None_false _ H), andb_false_r. reflexivity.
    + rewrite (is_None_false _ H), andb_false_r. reflexivity.
  - intros bounds0 w oc lc ff mgo H. apply best_point_rejected.
    unfold best_point_preconditions.
    destruct H as [H|[H|H]].
    + rewrite (Hb _ H). reflexivity.
    + rewrite (is_None_false _ H), andb_false_r. reflexivity.
    + rewrite (is_None_false _ H), andb_false_r. reflexivity.
Qed.

(** A bound [(0, 1)] for [fit], fixed features for [gen] and
    [best_point]. *)
Lemma unsupported_inputs_rejected_witness :
  fit Scenario.super_fit [Scenario.X_seen] [Scenario.Y_seen]
      [Scenario.Y_seen]
      (mkSearchSpaceDigest ["a"]%string [(0, 1)] [] []) ["m"]%string None
      Scenario.model
  = (Raise AssertionError, Scenario.model) /\
  gen Scenario.super_gen 1 [(-1, 1)] [1] None None (Some [(0%nat, 1)]) None
      None Scenario.model
  = (Raise AssertionError, Scenario.model) /\
  best_point Scenario.super_best_point [(-1, 1)] [1] None None
             (Some [(0%nat, 1)]) None Scenario.model
  = (Raise AssertionError, Scenario.model).
Proof.
  pose proof (unsupported_inputs_rejected Scenario.super_fit
                Scenario.super_gen Scenario.super_best_point Scenario.model)
    as [Hf [Hg Hb]].
  split; [|split].
  - apply Hf. right. right. intros H.
    inversion H as [|? ? [H1 _] _]; subst. discriminate H1.
  - apply Hg. right. right. left. discriminate.
  - apply Hb. right. right. discriminate.
Defined.

(** X13 - What [best_point] returns.  [best_point] returns a point [v]
    exactly when its checks pass, the superclass [best_point], called with
    [bounds_d] itself, returns a point [x] with an entry for every bound,
    and [v] is [project_up] of [x] taken from the unit box to [bounds_d];
    only the superclass state changes.  Such a [v] has D entries.  When
    the superclass finds no point, none is returned. *)
Theorem best_point_projects {Any Base : Type}
        (super_best_point :
           Base -> list bound -> vec -> option (Tensor * Tensor) ->
           option (list (string * Any)) -> sresult (option vec) * Base)
        (bounds0 : list bound) (w : vec)
        (oc lc : option (Tensor * Tensor))
        (ff : option (list (nat * Q)))
        (mgo : option (list (string * Any)))
        (self self' : REMBO Base) (v : vec) :
  (best_point super_best_point bounds0 w oc lc ff mgo self
   = (Ok (Some v), self') <->
   exists x b',
     best_point_preconditions bounds0 lc ff = true /\
     super_best_point (base self) (bounds_d self) w oc mgo
     = (SOk (Some x), b') /\
     (length (bounds_d self) <= length x)%nat /\
     project_up_vec self (affine_row from_unit (bounds_d self) x) = Ok v /\
     self' = set_base b' self) /\
  (best_point super_best_point bounds0 w oc lc ff mgo self
   = (Ok (Some v), self') ->
   length v = shape0 (A self)) /\
  (best_point super_best_point bounds0 w oc lc ff mgo self
   = (Ok None, self') <->
   exists b',
     best_point_preconditions bounds0 lc ff = true /\
     super_best_point (base self) (bounds_d self) w oc mgo = (SOk None, b') /\
     self' = set_base b' self).
Proof.
  assert (Hstep : forall x,
             (length (bounds_d self) <= length x)%nat ->
             from_01 self (unsqueeze0 x)
             = Ok (mkTensor (length x)
                            [affine_row from_unit (bounds_d self) x])).
  { intros x Hx. rewrite from_01_rows by exact Hx. reflexivity. }
  assert (Hup : forall x,
             length x = shape1 (A self) ->
             project_up self
               (mkTensor (length x) [affine_row from_unit (bounds_d self) x])
             = Ok (mkTensor (shape0 (A self))
                     [clamp_vec (-1) 1
                        (map (fun a =>
                                dot a (affine_row from_unit
                                                  (bounds_d self) x))
                             (rows (A self)))])).
  { intros x Hx. rewrite project_up_rows; [reflexivity| |exact Hx].
    constructor; [apply affine_row_length | constructor]. }
  assert (Hfwd : best_point super_best_point bounds0 w oc lc ff mgo self
                 = (Ok (Some v), self') ->
                 exists x b',
                   best_point_preconditions bounds0 lc ff = true /\
                   super_best_point (base self) (bounds_d self) w oc mgo
                   = (SOk (Some x), b') /\
                   (length (bounds_d self) <= length x)%nat /\
                   project_up_vec self
                     (affine_row from_unit (bounds_d self) x) = Ok v /\
                   self' = set_base b' self).
  { intros H.
    destruct (best_point_preconditions bounds0 lc ff) eqn:Hpre.
    2:{ rewrite best_point_rejected in H by exact Hpre. discriminate. }
    rewrite best_point_accepted in H by exact Hpre.
    destruct (super_best_point (base self) (bounds_d self) w oc mgo)
      as [[[x|]|msg] b'] eqn:Es; try discriminate.
    destruct (Nat.le_gt_cases (length (bounds_d self)) (length x))
      as [Hx|Hx].
    2:{ rewrite from_01_short in H by exact Hx. discriminate. }
    rewrite (Hstep x Hx) in H.
    destruct (Nat.eq_dec (length x) (shape1 (A self))) as [Hd|Hd].
    2:{ rewrite project_up_shape_error in H by exact Hd. discriminate. }
    rewrite (Hup x Hd) in H. injection H as <- <-.
    exists x, b'. repeat split; try assumption.
    apply project_up_vec_value. rewrite affine_row_length. exact Hd. }
  split; [split; [exact Hfwd|]|split].
  - intros [x [b' [Hpre [Es [Hx [Hv ->]]]]]].
    rewrite best_point_accepted by exact Hpre. rewrite Es, (Hstep x Hx).
    destruct (project_up_vec_lengths self _ v Hv) as [Hd _].
    rewrite affine_row_length in Hd. rewrite (Hup x Hd).
    rewrite project_up_vec_value in Hv
      by (rewrite affine_row_length; exact Hd).
    injection Hv as <-. reflexivity.
  - intros H. destruct (Hfwd H) as [x [b' [_ [_ [_ [Hv _]]]]]].
    exact (proj2 (project_up_vec_lengths self _ v Hv)).
  - split.
    + intros H.
      destruct (best_point_preconditions bounds0 lc ff) eqn:Hpre.
      2:{ rewrite best_point_rejected in H by exact Hpre. discriminate. }
      rewrite best_point_accepted in H by exact Hpre.
      destruct (super_best_point (base self) (bounds_d self) w oc mgo)
        as [[[x|]|msg] b'] eqn:Es; try discriminate.
      * destruct (from_01 self (unsqueeze0 x)); [|discriminate].
        destruct (project_up self v0); discriminate.
      * injection H as <-. exists b'. auto.
    + intros [b' [Hpre [Es ->]]].
      rewrite best_point_accepted by exact Hpre. rewrite Es. reflexivity.
Qed.

(** The superclass answers [1/4] of the unit interval, which is [-1/2] in
    [(-1, 1)] and projects to [(-1/2, 0, 0)]. *)
Lemma best_point_projects_witness :
  best_point Scenario.super_best_point [(-1, 1)] [1] None None None None
             Scenario.model
  = (Ok (Some [-2 # 4; 0 # 4; 0 # 4]),
     set_base [Scenario.BestPoint [(-1, 1)]] Scenario.model).
Proof.
  apply (proj1 (best_point_projects Scenario.super_best_point [(-1, 1)] [1]
                  None None None None Scenario.model _ _)).
  exists [1 # 4], [Scenario.BestPoint [(-1, 1)]].
  repeat split. simpl. lia.
Defined.

(** ** [_get_single_X], exactly *)

Lemma compare_loop_Ok (X : Tensor) (rest : list Tensor) :
  forall pre : list Tensor,
    for_each (seq (length pre) (length rest))
             (fun i _ => Xi <- getitem (pre ++ rest) i ;;
                         c <- allclose X Xi ;;
                         assert_ c) tt
    = Ok tt
    <-> Forall (fun Xi => allclose X Xi = Ok true) rest.
Proof.
  induction rest as [|Xi rest IH]; intros pre; simpl.
  - split; [constructor | reflexivity].
  - rewrite getitem_middle. simpl.
    destruct (allclose X Xi) as [[|]|e] eqn:Ec; simpl.
    + specialize (IH (pre ++ [Xi])).
      rewrite length_app, Nat.add_1_r, <- app_assoc in IH. simpl in IH.
      rewrite IH. split.
      * intros H. constructor; [exact Ec | exact H].
      * intros H. inversion H; assumption.
    + split; [discriminate|]. intros H. inversion H; congruence.
    + split; [discriminate|]. intros H. inversion H; congruence.
Qed.

Lemma _get_single_X_cons (X0 X : Tensor) (rest : list Tensor) :
  _get_single_X (X0 :: rest) = Ok X <->
  X0 = X /\ Forall (fun Xi => allclose X Xi = Ok true) rest.
Proof.
  unfold _get_single_X. simpl. rewrite Nat.sub_0_r.
  pose proof (compare_loop_Ok X0 rest [X0]) as H. simpl in H.
  destruct (for_each (seq 1 (length rest)) _ tt) as [[]|e]; simpl.
  - split.
    + intros E. injection E as <-. split; [reflexivity|].
      apply H. reflexivity.
    + intros [-> _]. reflexivity.
  - split; [discriminate|]. intros [-> HF].
    apply H in HF. discriminate.
Qed.

(** X14 - [_get_single_X], exactly.  It returns a tensor [X] exactly when
    the list is [X] followed by tensors each of which [torch.allclose]
    accepts against [X]; in particular a list of one tensor is always
    accepted.  On the empty list it raises [IndexError]. *)
Theorem get_single_X_returns_first (Xs : list Tensor) (X : Tensor) :
  (_get_single_X Xs = Ok X <->
   exists rest,
     Xs = X :: rest /\ Forall (fun Xi => allclose X Xi = Ok true) rest) /\
  _get_single_X [X] = Ok X /\
  _get_single_X [] = Raise IndexError.
Proof.
  split; [|split].
  - destruct Xs as [|X0 rest].
    + split; [discriminate|]. intros [rest [H _]]. discriminate.
    + rewrite _get_single_X_cons. split.
      * intros [-> H]. exists rest. split; [reflexivity | exact H].
      * intros [rest' [E H]]. injection E as -> ->. split; [reflexivity|].
        exact H.
  - apply _get_single_X_cons. split; [reflexivity | constructor].
  - reflexivity.
Qed.

(** ** Fitting on the store's own projections *)






(** ** What a call can change *)

Section Untouched.

Context {Any Base : Type}.
Variable super_predict : Base -> Tensor -> sresult (Tensor * Tensor) * Base.
Variable super_cross_validate :
  Base -> list Tensor -> list Tensor -> list Tensor -> Tensor ->
  sresult (Tensor * Tensor) * Base.
Variable super_update :
  Base -> list Tensor -> list Tensor -> list Tensor ->
  option (list (list (option (list (string * Any))))) -> sresult unit * Base.
Variable self : REMBO Base.

Lemma super_outcome {T} (m : Base -> sresult T * Base) :
  (exists v b', super m self = (Ok v, set_base b' self)) \/
  (exists msg b', super m self = (Raise (SuperError msg), set_base b' self)).
Proof.
  unfold super. destruct (m (base self)) as [[v|msg] b'].
  - left. exists v, b'. reflexivity.
  - right. exists msg, b'. reflexivity.
Qed.

Lemma own_or_super_super {T} (m : Base -> sresult T * Base) :
  own_or_super self (super m self).
Proof.
  destruct (super_outcome m) as [H|H]; [right; left | right; right]; exact H.
Qed.

Lemma own_or_super_raise {T U} (r : result T) (e : exn) :
  r = Raise e -> no_super r -> @own_or_super Base U self (Raise e, self).
Proof.
  intros -> H. left. exists e. split; [reflexivity|].
  intros msg ->. exact (H msg eq_refl).
Qed.

End Untouched.

(** Nothing in this file raises the superclass's exceptions. *)

Lemma no_super_Ok {T} (v : T) : no_super (Ok v).
Proof. intros msg. discriminate. Qed.

Lemma no_super_rbind {T U} (m : result T) (k : T -> result U) :
  no_super m -> (forall v, no_super (k v)) -> no_super (rbind m k).
Proof.
  intros Hm Hk. destruct m as [v|e]; simpl; [apply Hk|].
  intros msg H. injection H as ->. exact (Hm msg eq_refl).
Qed.

Lemma no_super_getitem {T} (l : list T) (i : nat) : no_super (getitem l i).
Proof. unfold getitem. destruct (nth_error l i); intros msg; discriminate. Qed.

Lemma no_super_assert (b : bool) : no_super (assert_ b).
Proof. destruct b; intros msg; discriminate. Qed.

Lemma no_super_allclose (X Y : Tensor) : no_super (allclose X Y).
Proof.
  intros msg H. apply allclose_raises in H. discriminate.
Qed.

Lemma no_super_allclose_vec (a b : vec) : no_super (allclose_vec a b).
Proof.
  unfold allclose_vec. destruct (broadcast_dim _ _); intros msg; discriminate.
Qed.

Lemma no_super_matmul (X Y : Tensor) : no_super (matmul X Y).
Proof.
  unfold matmul. destruct (_ =? _)%nat; intros msg; discriminate.
Qed.

Lemma no_super_stack (l : list vec) : no_super (stack l).
Proof.
  unfold stack. destruct l; [intros msg; discriminate|].
  destruct (forallb _ _); intros msg; discriminate.
Qed.

Lemma no_super_for_each {T S} (l : list T) (body : T -> S -> result S) :
  (forall x s, no_super (body x s)) ->
  forall s, no_super (for_each l body s).
Proof.
  intros Hb. induction l as [|x l IH]; intros s; simpl.
  - apply no_super_Ok.
  - apply no_super_rbind; [apply Hb | exact IH].
Qed.

Lemma no_super__get_single_X (Xs : list Tensor) : no_super (_get_single_X Xs).
Proof.
  unfold _get_single_X.
  apply no_super_rbind; [apply no_super_getitem|]. intros X.
  apply no_super_rbind; [|intros; apply no_super_Ok].
  apply no_super_for_each. intros i s.
  apply no_super_rbind; [apply no_super_getitem|]. intros Xi.
  apply no_super_rbind; [apply no_super_allclose|]. intros c.
  apply no_super_assert.
Qed.

Section NoSuper.

Context {Base : Type}.
Variable self : REMBO Base.

Lemma no_super_to_01 (X : Tensor) : no_super (to_01 self X).
Proof.
  intros msg H. apply to_01_raises_IndexError in H. discriminate.
Qed.

Lemma no_super_project_up_vec (z : vec) : no_super (project_up_vec self z).
Proof.
  unfold project_up_vec, matvec.
  destruct (_ =? _)%nat; intros msg; discriminate.
Qed.

Lemma no_super_find_match (x : vec) (l : list nat) :
  no_super (find_match self x l).
Proof.
  induction l as [|i l IH]; simpl; [apply no_super_Ok|].
  apply no_super_rbind; [apply no_super_getitem|]. intros z.
  apply no_super_rbind; [apply no_super_project_up_vec|]. intros up.
  apply no_super_rbind; [apply no_super_allclose_vec|]. intros [|].
  - apply no_super_Ok.
  - exact IH.
Qed.

Lemma no_super_project_down_loop (xs : list vec) :
  forall acc unmatched, no_super (project_down_loop self xs acc unmatched).
Proof.
  induction xs as [|x xs IH]; intros acc unmatched; simpl;
    [apply no_super_Ok|].
  apply no_super_rbind; [apply no_super_find_match|]. intros [i|].
  - apply no_super_rbind; [apply no_super_getitem|]. intros z. apply IH.
  - intros msg. discriminate.
Qed.

Lemma no_super_project_down (X_D : Tensor) : no_super (project_down self X_D).
Proof.
  unfold project_down.
  apply no_super_rbind; [apply no_super_project_down_loop|].
  intros l. apply no_super_stack.
Qed.

End NoSuper.

(** X16 - [predict], [update] and [cross_validate] fail cleanly.  Each of
    them either raises an exception of this layer and leaves the whole
    object exactly as it was, or reaches the superclass, and then nothing
    but the superclass state differs afterwards, whether the superclass
    returns or raises.  (For [fit] this fails: see C9.) *)
Theorem predict_update_cross_validate_atomic {Any Base : Type}
        (super_predict : Base -> Tensor -> sresult (Tensor * Tensor) * Base)
        (super_cross_validate :
           Base -> list Tensor -> list Tensor -> list Tensor -> Tensor ->
           sresult (Tensor * Tensor) * Base)
        (super_update :
           Base -> list Tensor -> list Tensor -> list Tensor ->
           option (list (list (option (list (string * Any))))) ->
           sresult unit * Base)
        (self : REMBO Base) :
  (forall X, own_or_super self (predict super_predict X self)) /\
  (forall Xs Ys Yvars cm,
      own_or_super self (update super_update Xs Ys Yvars cm self)) /\
  (forall Xs Ys Yvars X_test,
      own_or_super self
        (cross_validate super_cross_validate Xs Ys Yvars X_test self)).
Proof.
  assert (Hfwd : forall X,
             own_or_super self (forward super_predict self X)).
  { intros X. unfold forward. destruct (to_01 self X) as [X01|e] eqn:E.
    - apply own_or_super_super.
    - apply (own_or_super_raise self _ e E). apply no_super_to_01. }
  split; [|split].
  - intros X.
    destruct (Nat.eq_dec (shape1 X) (shape1 (A self))) as [Hw|Hw].
    + rewrite predict_low_d by exact Hw. apply Hfwd.
    + rewrite predict_high_D by exact Hw.
      destruct (matmul X (t (_pinvA self))) as [X_d0|e] eqn:E1.
      2:{ apply (own_or_super_raise self _ e E1), no_super_matmul. }
      destruct (matmul X_d0 (t (A self))) as [XA|e] eqn:E2.
      2:{ apply (own_or_super_raise self _ e E2), no_super_matmul. }
      destruct (allclose X XA) as [[|]|e] eqn:E3.
      * apply Hfwd.
      * left. exists outside_embedding. split; [reflexivity|].
        intros msg. discriminate.
      * apply (own_or_super_raise self _ e E3), no_super_allclose.
  - intros Xs Ys Yvars cm. rewrite update_unfold.
    destruct (_get_single_X Xs) as [X_D|e] eqn:E1.
    2:{ apply (own_or_super_raise self _ e E1), no_super__get_single_X. }
    destruct (project_down self X_D) as [X_d0|e] eqn:E2.
    2:{ apply (own_or_super_raise self _ e E2), no_super_project_down. }
    destruct (to_01 self X_d0) as [X01|e] eqn:E3.
    2:{ apply (own_or_super_raise self _ e E3), no_super_to_01. }
    apply own_or_super_super.
  - intros Xs Ys Yvars X_test. rewrite cross_validate_unfold.
    destruct (_get_single_X Xs) as [X_D|e] eqn:E1.
    2:{ apply (own_or_super_raise self _ e E1), no_super__get_single_X. }
    destruct (project_down self X_D) as [X_d0|e] eqn:E2.
    2:{ apply (own_or_super_raise self _ e E2), no_super_project_down. }
    destruct (project_down self X_test) as [X_t|e] eqn:E3.
    2:{ apply (own_or_super_raise self _ e E3), no_super_project_down. }
    destruct (to_01 self X_d0) as [X01|e] eqn:E4.
    2:{ apply (own_or_super_raise self _ e E4), no_super_to_01. }
    destruct (to_01 self X_t) as [Xt01|e] eqn:E5.
    2:{ apply (own_or_super_raise self _ e E5), no_super_to_01. }
    apply own_or_super_super.
Qed.

(** ** The configuration never changes *)

Section Configuration.

Context {Any Base Kwargs : Type}.
Variable super_init : Kwargs -> Base.
Variable super_fit :
  Base -> list Tensor -> list Tensor -> list Tensor -> SearchSpaceDigest ->
  list string -> option (list (list (option (list (string * Any))))) ->
  sresult unit * Base.
Variable super_predict : Base -> Tensor -> sresult (Tensor * Tensor) * Base.
Variable super_gen :
  Base -> Z -> list bound -> vec -> option (Tensor * Tensor) ->
  option (list (string * Any)) ->
  sresult (Tensor * vec * list (string * Any)
           * option (list (option (list (string * Any))))) * Base.
Variable super_best_point :
  Base -> list bound -> vec -> option (Tensor * Tensor) ->
  option (list (string * Any)) -> sresult (option vec) * Base.
Variable super_cross_validate :
  Base -> list Tensor -> list Tensor -> list Tensor -> Tensor ->
  sresult (Tensor * Tensor) * Base.
Variable super_update :
  Base -> list Tensor -> list Tensor -> list Tensor ->
  option (list (list (option (list (string * Any))))) -> sresult unit * Base.
Variable pinverse : Tensor -> Tensor.

Local Abbreviation steps :=
  (run_all super_fit super_predict super_gen super_best_point
           super_cross_validate super_update).

Lemma steps_keep_config (os : list (op Any)) :
  forall self : REMBO Base,
    A (steps os self) = A self /\
    _pinvA (steps os self) = _pinvA self /\
    bounds_d (steps os self) = bounds_d self.
Proof.
  induction os as [|o os IH]; intros self; simpl.
  - repeat split; reflexivity.
  - destruct (IH (snd (run super_fit super_predict super_gen
                           super_best_point super_cross_validate
                           super_update o self))) as [H1 [H2 H3]].
    destruct (step_keeps_config super_fit super_predict super_gen
                super_best_point super_cross_validate super_update o self)
      as [K1 [K2 K3]].
    rewrite H1, H2, H3, K1, K2, K3. repeat split; reflexivity.
Qed.

(** X17 - The configuration is fixed at construction.  After any sequence
    of [fit], [predict], [gen], [best_point], [cross_validate] and
    [update] calls on a constructed model, whatever each returned or
    raised, [A] and [bounds_d] are the constructor's arguments and
    [_pinvA] is still the pseudo-inverse of that [A] computed then. *)
Theorem configuration_is_fixed (A0 initial_X_d : Tensor)
        (bounds_d0 : list bound) (kwargs : Kwargs) (os : list (op Any)) :
  let self := steps os (__init__ super_init pinverse A0 initial_X_d
                                 bounds_d0 kwargs) in
  A self = A0 /\ _pinvA self = pinverse A0 /\ bounds_d self = bounds_d0.
Proof.
  cbv zeta.
  destruct (steps_keep_config os
              (__init__ super_init pinverse A0 initial_X_d bounds_d0 kwargs))
    as [H1 [H2 H3]].
  rewrite H1, H2, H3. repeat split; reflexivity.
Qed.

End Configuration.

(** ** [project_up] as a clamped matrix product *)

Lemma Qmult_comm_eq (x y : Q) : x * y = y * x.
Proof.
  destruct x as [a b], y as [c d]. unfold Qmult. simpl.
  rewrite Z.mul_comm, Pos.mul_comm. reflexivity.
Qed.

Lemma dot_comm (u : vec) : forall v : vec, dot u v = dot v u.
Proof.
  unfold dot. induction u as [|a u IH]; intros [|b v]; simpl;
    try reflexivity.
  rewrite IH, Qmult_comm_eq. reflexivity.
Qed.

Lemma clamp1_inside (z : Q) : in_unit_box z -> clamp1 (-1) 1 z = z.
Proof.
  intros [Hl Hu]. unfold clamp1, Qmin, Qmax, GenericMinMax.gmin,
    GenericMinMax.gmax.
  assert (H1 : (z ?= -1) <> Lt) by (apply Qge_alt; exact Hl).
  destruct (z ?= -1) eqn:E1; try congruence;
    (assert (H2 : (z ?= 1) <> Gt) by (apply Qle_alt; exact Hu);
     destruct (z ?= 1) eqn:E2; congruence).
Qed.

Lemma clamp_vec_inside (v : vec) :
  Forall in_unit_box v -> clamp_vec (-1) 1 v = v.
Proof.
  unfold clamp_vec. induction 1 as [|z v Hz _ IH]; cbn [map];
    [reflexivity|].
  f_equal; [apply clamp1_inside; exact Hz | exact IH].
Qed.

(** X18 - [project_up] is the clamped product with the transpose of [A].
    For a well-formed [A] and a well-formed tensor [X] of d columns, the
    product [X @ A^T] - the re-projection [predict] compares its input
    with - is defined, and [project_up(X)] is that product with every
    entry clamped to [[-1, 1]]; when the product already lies in the box,
    [project_up(X)] is the product itself. *)
Theorem project_up_is_clamped_product {Base : Type} (self : REMBO Base)
        (X : Tensor) :
  wf_tensor (A self) ->
  wf_tensor X ->
  shape1 X = shape1 (A self) ->
  exists P,
    matmul X (t (A self)) = Ok P /\
    project_up self X = Ok (clamp (-1) 1 P) /\
    (Forall (Forall in_unit_box) (rows P) -> project_up self X = Ok P).
Proof.
  intros HA HX Hc.
  assert (HP : matmul X (t (A self))
               = Ok (mkTensor (shape0 (A self))
                       (map (fun x => map (fun a => dot a x) (rows (A self)))
                            (rows X)))).
  { unfold matmul. rewrite shape0_t, Hc, Nat.eqb_refl. simpl.
    f_equal. f_equal. apply map_ext. intros x.
    unfold shape0.
    rewrite <- (map_nth_seq (fun a => dot a x) [] (rows (A self))).
    apply map_ext_in. intros j Hj. apply in_seq in Hj.
    rewrite col_t by (try exact HA; unfold shape0; lia).
    apply dot_comm. }
  eexists. split; [exact HP|].
  assert (Hup : project_up self X
                = Ok (clamp (-1) 1
                        (mkTensor (shape0 (A self))
                           (map (fun x => map (fun a => dot a x)
                                              (rows (A self)))
                                (rows X))))).
  { rewrite project_up_rows by assumption. unfold clamp. simpl.
    rewrite map_map. reflexivity. }
  split; [exact Hup|].
  intros Hin. rewrite Hup. unfold clamp. simpl. f_equal. f_equal.
  simpl in Hin. clear - Hin.
  induction Hin as [|r rs Hr _ IH]; cbn [map]; [reflexivity|].
  f_equal; [apply clamp_vec_inside; exact Hr | exact IH].
Qed.

(** A point that is clamped and one that is not. *)
Lemma project_up_is_clamped_product_witness :
  exists P,
    matmul (mkTensor 1 [[5]; [1 # 2]]) (t (A Scenario.model)) = Ok P /\
    project_up Scenario.model (mkTensor 1 [[5]; [1 # 2]])
    = Ok (clamp (-1) 1 P) /\
    (Forall (Forall in_unit_box) (rows P) ->
     project_up Scenario.model (mkTensor 1 [[5]; [1 # 2]]) = Ok P).
Proof.
  apply (project_up_is_clamped_product Scenario.model
           (mkTensor 1 [[5]; [1 # 2]])).
  - repeat constructor.
  - repeat constructor.
  - reflexivity.
Defined.

(** ** The descriptor [fit] synthesises *)

Lemma feature_name_inj (i j : nat) :
  ("x" ++ NilEmpty.string_of_uint (Nat.to_uint i))%string
  = ("x" ++ NilEmpty.string_of_uint (Nat.to_uint j))%string ->
  i = j.
Proof.
  simpl. intros H. injection H as H.
  apply DecimalNat.Unsigned.to_uint_inj.
  apply (f_equal NilEmpty.uint_of_string) in H.
  rewrite !NilEmpty.usu in H. congruence.
Qed.

Lemma NoDup_map_inj {T U} (f : T -> U) (l : list T) :
  (forall a b, f a = f b -> a = b) -> NoDup l -> NoDup (map f l).
Proof.
  intros Hf. induction 1 as [|a l Ha _ IH]; simpl; constructor;
    [|exact IH].
  intros Hin. apply in_map_iff in Hin. destruct Hin as [b [Hb Hbl]].
  apply Hf in Hb. subst b. contradiction.
Qed.

(** X19 - The descriptor handed to the superclass by [fit] is well
    formed: it names one feature per column of [A], the names
    [x0, x1, ...] are pairwise distinct, and it declares one bound
    [(0, 1)] per entry of [bounds_d]. *)
Theorem low_d_descriptor_well_formed {Base : Type} (self : REMBO Base) :
  length (low_d_feature_names self) = shape1 (A self) /\
  NoDup (low_d_feature_names self) /\
  (forall i, (i < shape1 (A self))%nat ->
             nth_error (low_d_feature_names self) i
             = Some ("x" ++ NilEmpty.string_of_uint (Nat.to_uint i))%string) /\
  length (unit_bounds self) = length (bounds_d self) /\
  Forall (fun b => b = (0, 1)) (unit_bounds self).
Proof.
  unfold low_d_feature_names, unit_bounds.
  split; [rewrite length_map, length_seq; reflexivity|].
  split; [apply NoDup_map_inj; [exact feature_name_inj | apply seq_NoDup]|].
  split.
  - intros i Hi. rewrite nth_error_map.
    rewrite (nth_error_nth_default (seq 0 (shape1 (A self))) i 0%nat)
      by (rewrite length_seq; exact Hi).
    rewrite seq_nth by exact Hi. reflexivity.
  - split; [apply repeat_length|].
    apply Forall_forall. intros b Hb. exact (repeat_spec _ _ _ Hb).
Qed.

(** ** Inputs the facade cannot place *)

(** X20 - A [predict] input of a width that is neither d nor the column
    count of the cached pseudo-inverse stops at the first matrix product:
    [predict] raises the shape error, the superclass is not called and
    the object is unchanged; this holds for a batch of no rows too. *)
Theorem predict_wrong_width {Base : Type}
        (super_predict : Base -> Tensor -> sresult (Tensor * Tensor) * Base)
        (self : REMBO Base) (X : Tensor) :
  shape1 X <> shape1 (A self) ->
  shape1 X <> shape1 (_pinvA self) ->
  predict super_predict X self = (Raise RuntimeError, self).
Proof.
  intros Hd HD. rewrite predict_high_D by exact Hd.
  unfold matmul. rewrite shape0_t.
  destruct (Nat.eqb_spec (shape1 X) (shape1 (_pinvA self))) as [E|_];
    [contradiction | reflexivity].
Qed.

(** Two columns on the scenario model (d = 1, D = 3), without rows. *)
Lemma predict_wrong_width_witness :
  predict Scenario.super_predict (mkTensor 2 []) Scenario.model
  = (Raise RuntimeError, Scenario.model).
Proof.
  apply (predict_wrong_width Scenario.super_predict Scenario.model
           (mkTensor 2 [])).
  - vm_compute. lia.
  - vm_compute. lia.
Defined.

Lemma project_down_raises_unresolved {Base : Type} (self : REMBO Base)
      (X_D : Tensor) (x : vec) :
  Forall (fun z => length z = shape1 (A self)) (X_d self) ->
  Forall (fun r => length r = shape0 (A self)) (rows X_D) ->
  In x (rows X_D) ->
  (forall z up,
      In z (X_d self) -> project_up_vec self z = Ok up ->
      allclose_vec x up = Ok false) ->
  project_down self X_D = Raise unresolved.
Proof.
  intros Hstore Hrows Hin Hfar. unfold project_down.
  rewrite (project_down_loop_unresolved self Hstore x Hfar).
  - reflexivity.
  - exact Hrows.
  - apply Forall_forall. intros i Hi. apply in_seq in Hi. lia.
  - exact Hin.
Qed.

(** X21 - Unseen points in [update] and [cross_validate].  On a store of
    points with d entries: if the shared design matrix of [update] has
    rows of length D one of which is the projection of no stored point,
    [update] raises the correspondence [ValueError]; if the training
    matrix of [cross_validate] resolves but the test matrix has such a
    row, so does [cross_validate].  In both cases the superclass is not
    called and the object is unchanged. *)
Theorem unseen_points_rejected {Any Base : Type}
        (super_update :
           Base -> list Tensor -> list Tensor -> list Tensor ->
           option (list (list (option (list (string * Any))))) ->
           sresult unit * Base)
        (super_cross_validate :
           Base -> list Tensor -> list Tensor -> list Tensor -> Tensor ->
           sresult (Tensor * Tensor) * Base)
        (self : REMBO Base) (Xs Ys Yvars : list Tensor)
        (cm : option (list (list (option (list (string * Any))))))
        (X_D X_bad : Tensor) (x : vec) :
  Forall (fun z => length z = shape1 (A self)) (X_d self) ->
  _get_single_X Xs = Ok X_D ->
  Forall (fun r => length r = shape0 (A self)) (rows X_bad) ->
  In x (rows X_bad) ->
  (forall z up,
      In z (X_d self) -> project_up_vec self z = Ok up ->
      allclose_vec x up = Ok false) ->
  (X_D = X_bad ->
   update super_update Xs Ys Yvars cm self
   = (Raise (ValueError "Failed to project X down."), self)) /\
  (forall X_train_d,
      project_down self X_D = Ok X_train_d ->
      cross_validate super_cross_validate Xs Ys Yvars X_bad self
      = (Raise (ValueError "Failed to project X down."), self)).
Proof.
  intros Hstore HX Hrows Hin Hfar.
  pose proof (project_down_raises_unresolved self X_bad x Hstore Hrows Hin
                Hfar) as Hbad.
  split.
  - intros ->. rewrite update_unfold, HX, Hbad. reflexivity.
  - intros X_train_d Htrain.
    rewrite cross_validate_unfold, HX, Htrain, Hbad. reflexivity.
Qed.

(** The scenario model asked about the point [(1/4, 0, 0)]. *)
Lemma unseen_points_rejected_witness :
  let X_bad := mkTensor 3 [[1 # 4; 0; 0]] in
  update Scenario.super_update [X_bad] [Scenario.Y_seen] [Scenario.Y_seen]
         None Scenario.model
  = (Raise (ValueError "Failed to project X down."), Scenario.model) /\
  cross_validate Scenario.super_cross_validate [Scenario.X_seen]
                 [Scenario.Y_seen] [Scenario.Y_seen] X_bad Scenario.model
  = (Raise (ValueError "Failed to project X down."), Scenario.model).
Proof.
  intros X_bad.
  assert (Hfar : forall z up,
             In z (X_d Scenario.model) ->
             project_up_vec Scenario.model z = Ok up ->
             allclose_vec [1 # 4; 0; 0] up = Ok false).
  { intros z up [<-|[<-|[]]] H; injection H as <-; reflexivity. }
  split.
  - apply (proj1 (unseen_points_rejected Scenario.super_update
                    Scenario.super_cross_validate Scenario.model [X_bad]
                    [Scenario.Y_seen] [Scenario.Y_seen] None X_bad X_bad
                    [1 # 4; 0; 0]
                    ltac:(repeat constructor) eq_refl
                    ltac:(repeat constructor)
                    (or_introl eq_refl) Hfar)).
    reflexivity.
  - apply (proj2 (unseen_points_rejected Scenario.super_update
                    Scenario.super_cross_validate Scenario.model
                    [Scenario.X_seen] [Scenario.Y_seen] [Scenario.Y_seen]
                    None Scenario.X_seen X_bad [1 # 4; 0; 0]
                    ltac:(repeat constructor) eq_refl
                    ltac:(repeat constructor)
                    (or_introl eq_refl) Hfar)
             (mkTensor 1 [[0]; [1 # 2]])).
    reflexivity.
Defined.

(** * Boundary cases of the store, and the numeric functions on IEEE
      entries *)

(** ** An empty store and an empty batch *)


(** ** A [gen] that raises after extending the store *)

(** C7 (as stated) fails: [gen] extends the store and the generated log
    before it calls [project_up].  With two bounds in [bounds_d] and a
    one-column [A], the superclass returns candidates of two columns,
    both lists take the new point, and [project_up] then raises on the
    shapes: the failed [gen] has added an entry to each. *)
Lemma gen_raising_extends_store_counterexample :
  let self := mkREMBO Scenario.A0 (Scenario.pinverse Scenario.A0) [[0]] []
                      [(-1, 1); (-1, 1)] 0 (@nil Scenario.call) in
  let r := gen Scenario.super_gen 1 [(-1, 1)] [1] None None None None None
               self in
  fst r = Raise RuntimeError /\
  X_d (snd r) = X_d self ++ [[2 # 4; 2 # 4]] /\
  X_d_gen (snd r) = X_d_gen self ++ [[2 # 4; 2 # 4]].
Proof. repeat split. Qed.

(** ** Comparisons of IEEE numbers *)

Section IEEE.

Import Floats.
Local Open Scope float_scope.

Lemma SFcompare_antisym (a b : spec_float) (c : comparison) :
  SFcompare a b = Some c -> SFcompare b a = Some (CompOpp c).
Proof.
  destruct a as [sa|sa| |sa ma ea], b as [sb|sb| |sb mb eb]; simpl;
    try discriminate;
    try (intros H; injection H as <-; destruct sa; try destruct sb;
         reflexivity);
    try (intros H; injection H as <-; destruct sb; reflexivity).
  intros H. injection H as <-. f_equal.
  destruct sa, sb; try reflexivity.
  - rewrite (Z.compare_antisym ea eb).
    destruct (ea ?= eb)%Z; simpl; try reflexivity.
    change (Pos.compare_cont Eq mb ma) with (mb ?= ma)%positive.
    change (Pos.compare_cont Eq ma mb) with (ma ?= mb)%positive.
    rewrite (Pos.compare_antisym ma mb).
    destruct (ma ?= mb)%positive; reflexivity.
  - rewrite (Z.compare_antisym ea eb).
    destruct (ea ?= eb)%Z; simpl; try reflexivity.
    change (Pos.compare_cont Eq mb ma) with (mb ?= ma)%positive.
    change (Pos.compare_cont Eq ma mb) with (ma ?= mb)%positive.
    rewrite (Pos.compare_antisym ma mb).
    destruct (ma ?= mb)%positive; reflexivity.
Qed.

Lemma SFcompare_refl (a : spec_float) :
  a <> S754_nan -> SFcompare a a = Some Eq.
Proof.
  destruct a as [sa|sa| |sa ma ea]; simpl; intros H;
    try (destruct sa; reflexivity); try congruence.
  rewrite Z.compare_refl.
  change (Pos.compare_cont Eq ma ma) with (ma ?= ma)%positive.
  rewrite Pos.compare_refl. destruct sa; reflexivity.
Qed.

Lemma is_nan_Prim2SF (x : float) :
  is_nan x = true -> Prim2SF x = S754_nan.
Proof.
  unfold is_nan. rewrite FloatAxioms.eqb_spec. unfold SFeqb. intros H.
  destruct (Prim2SF x) as [sa|sa| |sa ma ea] eqn:E; try reflexivity;
    rewrite SFcompare_refl in H by discriminate; discriminate.
Qed.

(** A NaN fails every order comparison. *)
Lemma nan_ltb (x y : float) :
  is_nan x = true -> (x <? y) = false /\ (y <? x) = false.
Proof.
  intros H. apply is_nan_Prim2SF in H.
  rewrite !FloatAxioms.ltb_spec. unfold SFltb. rewrite H.
  split; [reflexivity|]. destruct (Prim2SF y); reflexivity.
Qed.

(** Between two numbers, [x < y] failing means [y <= x]. *)
Lemma not_ltb_leb (x y : float) :
  (x <? y) = false -> is_nan x = false -> is_nan y = false ->
  (y <=? x) = true.
Proof.
  unfold is_nan.
  rewrite FloatAxioms.ltb_spec, FloatAxioms.leb_spec, !FloatAxioms.eqb_spec.
  unfold SFltb, SFleb, SFeqb.
  destruct (SFcompare (Prim2SF x) (Prim2SF y)) as [c|] eqn:E.
  - rewrite (SFcompare_antisym _ _ _ E). destruct c; simpl; congruence.
  - intros _ Hx Hy. exfalso.
    destruct (Prim2SF x) as [sa|sa| |sa ma ea],
             (Prim2SF y) as [sb|sb| |sb mb eb];
      simpl in *; try discriminate.
Qed.

(** [torch.clamp] to [[-1, 1]] on one entry: a number lands in the
    interval, a NaN stays a NaN. *)
Lemma clamp1_number (z : float) :
  is_nan z = false -> Float64.in_unit_box (Float64.clamp1 (-1) 1 z).
Proof.
  intros Hz. unfold Float64.clamp1, Float64.in_unit_box.
  destruct (z <? -1) eqn:E1; [split; reflexivity|].
  destruct (1 <? z) eqn:E2; [split; reflexivity|].
  split.
  - apply not_ltb_leb; [exact E1 | exact Hz | reflexivity].
  - apply not_ltb_leb; [exact E2 | reflexivity | exact Hz].
Qed.

Lemma clamp1_nan (z : float) :
  is_nan z = true -> Float64.clamp1 (-1) 1 z = z.
Proof.
  intros Hz. unfold Float64.clamp1.
  destruct (nan_ltb z (-1) Hz) as [-> _].
  destruct (nan_ltb z 1 Hz) as [_ ->]. reflexivity.
Qed.

(** ** [project_up] on IEEE entries *)

Lemma Float64_shape0_t (X : Float64.Tensor) :
  Float64.shape0 (Float64.t X) = Float64.shape1 X.
Proof.
  unfold Float64.shape0, Float64.t. simpl.
  rewrite length_map, length_seq. reflexivity.
Qed.

Lemma Float64_matmul_t (A X : Float64.Tensor) :
  Float64.shape1 X = Float64.shape1 A ->
  Float64.matmul A (Float64.t X)
  = Ok (Float64.mkTensor (Float64.shape0 X)
          (map (fun r =>
                  map (fun j => Float64.dot r (Float64.col j (Float64.t X)))
                      (seq 0 (Float64.shape0 X)))
               (Float64.rows A))).
Proof.
  intros H. unfold Float64.matmul.
  rewrite Float64_shape0_t, H, Nat.eqb_refl. reflexivity.
Qed.

Lemma Float64_clamp_t_entries (P : Float64.Tensor) (Q0 : float -> Prop) :
  (forall r j, In r (Float64.rows P) ->
               Q0 (Float64.clamp1 (-1) 1 (nth j r 0))) ->
  Forall (Forall Q0)
         (Float64.rows (Float64.clamp (-1) 1 (Float64.t P))).
Proof.
  intros H. unfold Float64.clamp, Float64.t. simpl.
  apply Forall_forall. intros row Hrow.
  apply in_map_iff in Hrow. destruct Hrow as [c [<- Hc]].
  apply in_map_iff in Hc. destruct Hc as [j [<- _]].
  apply Forall_forall. intros z Hz.
  apply in_map_iff in Hz. destruct Hz as [p [<- Hp]].
  unfold Float64.col in Hp.
  apply in_map_iff in Hp. destruct Hp as [r [<- Hr]].
  apply H, Hr.
Qed.

(** C5 (as amended) - Projection range on IEEE entries.  For an input
    with d columns [project_up] returns a tensor with a row for each point
    and D columns, and every coordinate of it is a NaN or lies in
    [[-1, 1]]; all coordinates lie in [[-1, 1]] when the product
    [A @ t(X)] holds no NaN. *)
Theorem project_up_nan_or_in_unit_box (A X : Float64.Tensor) :
  Float64.shape1 X = Float64.shape1 A ->
  exists P Z,
    Float64.matmul A (Float64.t X) = Ok P /\
    Float64.project_up A X = Ok Z /\
    Float64.shape0 Z = Float64.shape0 X /\
    Float64.shape1 Z = Float64.shape0 A /\
    Forall (Forall (fun z => is_nan z = true \/
                             Float64.in_unit_box z))
           (Float64.rows Z) /\
    (Forall (Forall (fun p => is_nan p = false))
            (Float64.rows P) ->
     Forall (Forall Float64.in_unit_box) (Float64.rows Z)).
Proof.
  intros H.
  eexists. eexists.
  split; [apply Float64_matmul_t; exact H|].
  split; [unfold Float64.project_up; rewrite (Float64_matmul_t A X H);
          reflexivity|].
  split.
  { unfold Float64.shape0 at 1. simpl.
    rewrite !length_map, length_seq. reflexivity. }
  split.
  { simpl. unfold Float64.shape0. simpl. apply length_map. }
  split.
  - apply Float64_clamp_t_entries. intros r j _.
    destruct (is_nan (nth j r 0)) eqn:E.
    + left. rewrite (clamp1_nan _ E). exact E.
    + right. apply clamp1_number, E.
  - intros Hnum. apply Float64_clamp_t_entries. intros r j Hr.
    apply clamp1_number.
    destruct (nth_in_or_default j r 0) as [Hin | ->];
      [|reflexivity].
    rewrite Forall_forall in Hnum.
    specialize (Hnum r Hr). rewrite Forall_forall in Hnum.
    apply Hnum, Hin.
Qed.

(** Three points on the first axis, two of them outside the box. *)
Lemma project_up_nan_or_in_unit_box_witness :
  let A := Float64.mkTensor 1 [[1]; [0]; [0]] in
  let X := Float64.mkTensor 1 [[5]; [-7]; [0.5]] in
  exists P Z,
    Float64.matmul A (Float64.t X) = Ok P /\
    Float64.project_up A X = Ok Z /\
    Float64.shape0 Z = Float64.shape0 X /\
    Float64.shape1 Z = Float64.shape0 A /\
    Forall (Forall (fun z => is_nan z = true \/
                             Float64.in_unit_box z))
           (Float64.rows Z) /\
    (Forall (Forall (fun p => is_nan p = false))
            (Float64.rows P) ->
     Forall (Forall Float64.in_unit_box) (Float64.rows Z)).
Proof.
  intros A X.
  apply (project_up_nan_or_in_unit_box A X).
  reflexivity.
Defined.

(** C5 (as stated) fails: a NaN passes through [torch.clamp].  With [A]
    the first axis of three dimensions, the point NaN projects to three
    NaN, and the point +inf to 1 followed by two NaN (from [inf * 0]); a
    NaN is neither at least -1 nor at most 1. *)
Lemma project_up_nan_counterexample :
  let A := Float64.mkTensor 1 [[1]; [0]; [0]] in
  let X := Float64.mkTensor 1 [[nan]; [infinity]] in
  exists z1 z2 z3 z4 z5,
    Float64.project_up A X
    = Ok (Float64.mkTensor 3 [[z1; z2; z3]; [1; z4; z5]]) /\
    Forall (fun z => is_nan z = true /\
                     ~ Float64.in_unit_box z) [z1; z2; z3; z4; z5].
Proof.
  intros A X.
  exists nan, nan, nan, nan,
         nan.
  split; [vm_compute; reflexivity|].
  repeat constructor; intros [H _]; vm_compute in H; discriminate.
Qed.

(** ** The bounds transforms on IEEE entries *)


End IEEE.
